(** * GKA: configuration loading and spreadsheet cleaning utilities

    A shallow embedding of [utils.py] and [settings.py].  Tables are
    pandas DataFrames: a row index of integer labels and an ordered list of
    named columns, each holding one cell per row.  Failing code returns
    [Err] with the Python exception it raises.

    What the embedding covers.  Text is ASCII: a character is an [ascii]
    code point below 128.  Cells are integers, strings or one of the three
    missing markers of pandas; floating-point cells other than NaN are
    left out.  A column is read as pandas reads an array of Python objects.
    The values a filter compares cells with are strings.  pandas, pathlib
    and pydantic are modelled operation by operation, as far as the code
    calls them; [pd.read_excel] is a parameter. *)

From Stdlib Require Import ZArith Ascii String DecimalString Lia.
From stdpp Require Import base option list strings gmap.

Local Open Scope string_scope.
Local Open Scope Z_scope.
Local Open Scope list_scope.

(** ** Exceptions and results *)

Inductive exn :=
  | ValueError
  | KeyError
  | AttributeError
  | IndexError
  | FileNotFoundError
  | PermissionError
  | ImportError
  | OtherError
  | RuntimeError (msg : string).

Inductive result (A : Type) :=
  | Ok (a : A)
  | Err (e : exn).
Arguments Ok {A} a.
Arguments Err {A} e.

Definition rbind {A B} (r : result A) (k : A → result B) : result B :=
  match r with
  | Ok a => k a
  | Err e => Err e
  end.

Notation "x ←r c ; k" := (rbind c (λ x, k))
  (at level 100, c at next level, right associativity, only parsing).

(** ** Python strings *)

Module PyStr.

(** [str.isspace] on one ASCII character: tab, line feed, vertical tab,
    form feed, carriage return, the four separators 28..31 and space. *)
Definition is_space (a : ascii) : bool :=
  let n := nat_of_ascii a in
  ((9 <=? n)%nat && (n <=? 13)%nat) || ((28 <=? n)%nat && (n <=? 32)%nat).

Fixpoint lstrip (s : string) : string :=
  match s with
  | EmptyString => EmptyString
  | String a s' => if is_space a then lstrip s' else s
  end.

Fixpoint rstrip (s : string) : string :=
  match s with
  | EmptyString => EmptyString
  | String a s' =>
      match rstrip s' with
      | EmptyString => if is_space a then EmptyString else String a EmptyString
      | r => String a r
      end
  end.

(** [s.strip()] *)
Definition strip (s : string) : string := lstrip (rstrip s).

Definition upper_char (a : ascii) : ascii :=
  let n := nat_of_ascii a in
  if ((97 <=? n)%nat && (n <=? 122)%nat) then ascii_of_nat (n - 32) else a.

Definition lower_char (a : ascii) : ascii :=
  let n := nat_of_ascii a in
  if ((65 <=? n)%nat && (n <=? 90)%nat) then ascii_of_nat (n + 32) else a.

Fixpoint map_chars (f : ascii → ascii) (s : string) : string :=
  match s with
  | EmptyString => EmptyString
  | String a s' => String (f a) (map_chars f s')
  end.

(** [s.upper()] and [s.lower()] *)
Definition upper : string → string := map_chars upper_char.
Definition lower : string → string := map_chars lower_char.

(** [str(n)] for an integer *)
Definition of_Z (n : Z) : string := NilZero.string_of_int (Z.to_int n).

(** [needle in s] for strings *)
Fixpoint contains (needle s : string) : bool :=
  String.prefix needle s ||
  match s with
  | EmptyString => false
  | String _ s' => contains needle s'
  end.

(** [s.rfind(c)]: position of the last occurrence, if any *)
Fixpoint rfind (c : ascii) (s : string) : option nat :=
  match s with
  | EmptyString => None
  | String a s' =>
      match rfind c s' with
      | Some i => Some (S i)
      | None => if Ascii.eqb a c then Some 0%nat else None
      end
  end.

Fixpoint drop (n : nat) (s : string) : string :=
  match n, s with
  | O, _ => s
  | S n', EmptyString => EmptyString
  | S n', String _ s' => drop n' s'
  end.

(** [s.isascii()]: every character is below 128.  On such text the
    functions above are those of Python; on other text Python also trims
    and upper-cases characters that are not ASCII. *)
Fixpoint is_ascii (s : string) : bool :=
  match s with
  | EmptyString => true
  | String a s' => (nat_of_ascii a <? 128)%nat && is_ascii s'
  end.

End PyStr.

(** ** Fiscal period *)

(** [current_ano_safra(month=None)]; [now_month] is [datetime.now().month]. *)
Definition current_ano_safra (now_month : Z) (month : option Z) : result string :=
  let month := match month with None => now_month | Some m => m end in
  if negb ((1 <=? month) && (month <=? 12)) then Err ValueError
  else if month =? 4 then Ok (PyStr.of_Z 1)
  else if 5 <=? month then Ok (PyStr.of_Z (month - 3))
  else Ok (PyStr.of_Z (month + 9)).

(** ** The file system, as far as the code observes it *)

Inductive entry_kind := RegularFile | Directory.

Record entry := { kind : entry_kind; readable : bool }.

(** A file system maps each existing path to its entry. *)
Abbreviation filesystem := (gmap string entry).

(** [Path(path).exists()] *)
Definition path_exists (fs : filesystem) (path : string) : bool :=
  bool_decide (is_Some (fs !! path)).

(** [os.access(path, os.R_OK)] *)
Definition os_access_R_OK (fs : filesystem) (path : string) : bool :=
  match fs !! path with
  | Some e => readable e
  | None => false
  end.

Definition validate_file (fs : filesystem) (path : string) : result bool :=
  if negb (path_exists fs path) then Err FileNotFoundError
  else if negb (os_access_R_OK fs path) then Err PermissionError
  else Ok true.

(** ** Tables

    A cell is an integer, a string, or one of the missing markers
    [float('nan')], [None] and [pd.NA]. *)

Inductive value :=
  | VInt (n : Z)
  | VStr (s : string)
  | VNaN
  | VNone
  | VNA.

Global Instance value_eq_dec : EqDecision value.
Proof. solve_decision. Defined.

(** A DataFrame: the row labels and the named columns, in order.  Column
    names may repeat.  Every column holds one cell per row ([wf]). *)
Record DataFrame := { index : list Z; columns : list (string * list value) }.

Global Instance DataFrame_eq_dec : EqDecision DataFrame.
Proof. solve_decision. Defined.

Definition wf (df : DataFrame) : Prop :=
  Forall (λ c, length c.2 = length (index df)) (columns df).

(** [df.columns] *)
Definition column_names (df : DataFrame) : list string := (columns df).*1.

(** The rows of a table, read across its columns: the label and one cell
    per column. *)
Fixpoint rows_of (idx : list Z) (cols : list (list value))
  : list (Z * list (option value)) :=
  match idx with
  | [] => []
  | l :: idx' => (l, head <$> cols) :: rows_of idx' (tail <$> cols)
  end.

Definition rows (df : DataFrame) : list (Z * list (option value)) :=
  rows_of (index df) (columns df).*2.

(** *** pandas primitives *)

(** [pd.isna] *)
Definition isna (v : value) : bool :=
  match v with
  | VNaN | VNone | VNA => true
  | _ => false
  end.

(** One cell of [Series.astype(str)]: every value, missing or not, is
    formatted as [str] does; this is why [clean_key] finds the texts NAN
    and NONE in a column that had missing cells. *)
Definition astype_str (v : value) : value :=
  VStr match v with
       | VInt n => PyStr.of_Z n
       | VStr s => s
       | VNaN => "nan"
       | VNone => "None"
       | VNA => "<NA>"
       end.

(** Boolean-mask selection, position by position. *)
Fixpoint select {A} (mask : list bool) (l : list A) : list A :=
  match mask, l with
  | b :: mask', x :: l' => if b then x :: select mask' l' else select mask' l'
  | _, _ => []
  end.

(** [df[mask]] for a boolean Series over the same index. *)
Definition select_rows (mask : list bool) (df : DataFrame) : DataFrame :=
  {| index := select mask (index df);
     columns := (λ c, (c.1, select mask c.2)) <$> columns df |}.

(** [list(range(a, b))] *)
Definition py_range (a b : Z) : list Z := seqZ a (b - a).

(** [df.drop(labels)]: rows are addressed by index label; a label that is
    not in the index raises [KeyError]. *)
Definition drop_rows (labels : list Z) (df : DataFrame) : result DataFrame :=
  if bool_decide (Forall (λ l, l ∈ index df) labels)
  then Ok (select_rows ((λ l, bool_decide (l ∉ labels)) <$> index df) df)
  else Err KeyError.

(** [df.drop(names, axis=1)] *)
Definition drop_columns (names : list string) (df : DataFrame) : result DataFrame :=
  if bool_decide (Forall (λ n, n ∈ column_names df) names)
  then Ok {| index := index df;
             columns := filter (λ c, c.1 ∉ names) (columns df) |}
  else Err KeyError.

(** Python slicing [l[a:b]]: negative bounds count from the end and both
    bounds are clipped to the list. *)
Definition py_slice {A} (a b : Z) (l : list A) : list A :=
  let n := Z.of_nat (length l) in
  let clip i := if i <? 0 then Z.max (i + n) 0 else Z.min i n in
  take (Z.to_nat (clip b - clip a)) (drop (Z.to_nat (clip a)) l).

(** One position of fancy indexing [idx[i]]; out of bounds raises. *)
Definition py_item {A} (l : list A) (i : Z) : result A :=
  let n := Z.of_nat (length l) in
  if (- n <=? i) && (i <? n)
  then match l !! Z.to_nat (if i <? 0 then i + n else i) with
       | Some x => Ok x
       | None => Err IndexError
       end
  else Err IndexError.

Fixpoint py_items {A} (l : list A) (idxs : list Z) : result (list A) :=
  match idxs with
  | [] => Ok []
  | i :: idxs' =>
      x ←r py_item l i;
      xs ←r py_items l idxs';
      Ok (x :: xs)
  end.

(** [df.set_axis(names, axis=1)] *)
Definition set_axis (names : list string) (df : DataFrame) : result DataFrame :=
  if bool_decide (length names = length (columns df))
  then Ok {| index := index df;
             columns := zip_with (λ n c, (n, c.2)) names (columns df) |}
  else Err ValueError.

(** What [df[column]] and [df.loc[:, column]] evaluate to: a Series when
    one column has that name, a DataFrame when several do. *)
Inductive selection :=
  | OneSeries (cells : list value)
  | SubFrame (cols : list (string * list value)).

Definition getitem (df : DataFrame) (column : string) : result selection :=
  match filter (λ c, c.1 = column) (columns df) with
  | [] => Err KeyError
  | [c] => Ok (OneSeries c.2)
  | cs => Ok (SubFrame cs)
  end.

(** [lib.infer_dtype(values, skipna=True)] on the cells of a column. *)
Inductive inferred := InferEmpty | InferString | InferInteger | InferMixedInteger.

Definition is_str (v : value) : bool := match v with VStr _ => true | _ => false end.
Definition is_int (v : value) : bool := match v with VInt _ => true | _ => false end.

(** A cell whose text, if it is a string, is ASCII. *)
Definition ascii_cell (v : value) : bool :=
  match v with
  | VStr s => PyStr.is_ascii s
  | _ => true
  end.

Definition infer_dtype (cells : list value) : inferred :=
  let present := filter (λ v, isna v = false) cells in
  match present with
  | [] => InferEmpty
  | _ => if forallb is_str present then InferString
         else if forallb is_int present then InferInteger
         else InferMixedInteger
  end.

(** The [.str] accessor: a DataFrame has none, and a Series offers it only
    when its values are inferred as text (possibly mixed) or empty. *)
Definition str_accessor (sel : selection) : result (list value) :=
  match sel with
  | SubFrame _ => Err AttributeError
  | OneSeries cells =>
      match infer_dtype cells with
      | InferInteger => Err AttributeError
      | _ => Ok cells
      end
  end.

(** [.str.strip()] and [.str.upper()]: cells that are not strings become NaN. *)
Definition str_method (f : string → string) (cells : list value) : list value :=
  (λ v, match v with VStr s => VStr (f s) | _ => VNaN end) <$> cells.

(** [Series.isin(values)] for string [values], one cell. *)
Definition isin (values : list string) (v : value) : bool :=
  match v with
  | VStr s => bool_decide (s ∈ values)
  | _ => false
  end.

(** [Series.replace(old, new)] for a string [old]. *)
Definition replace (old : string) (new : value) (cells : list value) : list value :=
  (λ v, if bool_decide (v = VStr old) then new else v) <$> cells.

(** [df[column] = cells] when [column] names one column. *)
Definition setitem (df : DataFrame) (column : string) (cells : list value) : DataFrame :=
  {| index := index df;
     columns := (λ c, if bool_decide (c.1 = column) then (c.1, cells) else c) <$> columns df |}.

(** [Index.duplicated()]: marks every name already seen to its left. *)
Fixpoint duplicated (seen names : list string) : list bool :=
  match names with
  | [] => []
  | n :: names' => bool_decide (n ∈ seen) :: duplicated (n :: seen) names'
  end.

(** [Series.unique()]: first occurrences, in order of appearance. *)
Fixpoint unique (seen l : list string) : list string :=
  match l with
  | [] => []
  | x :: l' => if bool_decide (x ∈ seen) then unique seen l'
               else x :: unique (x :: seen) l'
  end.

(** *** The cleaning transforms of [utils.py] *)

Definition remove_lines (args : list Z) (mode : string) (df : DataFrame)
  : result DataFrame :=
  match bool_decide (mode = "interval"), args with
  | true, [n] => drop_rows (py_range 0 n) df
  | true, [a; b] => drop_rows (py_range a b) df
  | _, _ => drop_rows args df
  end.

Definition remove_columns (args : list Z) (mode : string) (df : DataFrame)
  : result DataFrame :=
  match bool_decide (mode = "interval"), args with
  | true, [n] => drop_columns (py_slice 0 n (column_names df)) df
  | true, [a; b] => drop_columns (py_slice a b (column_names df)) df
  | _, _ =>
      names ←r py_items (column_names df) args;
      drop_columns names df
  end.

Definition rename_columns (args : list string) (df : DataFrame) : result DataFrame :=
  set_axis args df.

(** The two ways [filter_columns] takes its values: as the remaining
    positional arguments, or as one list, Series or set. *)
Inductive filter_args :=
  | Variadic (vs : list string)
  | Collection (vs : list string).

Definition filter_values (args : filter_args) : list string :=
  match args with
  | Collection vs => vs
  | Variadic vs => vs
  end.

Definition filter_columns (column : string) (args : filter_args) (df : DataFrame)
  : result DataFrame :=
  let values := filter_values args in
  sel ←r getitem df column;
  cells ←r str_accessor sel;
  Ok (select_rows (isin values <$> str_method PyStr.strip cells) df).

Definition extract_column (column mode : string) (args : list string) (df : DataFrame)
  : result (list string) :=
  let df := {| index := index df;
               columns := select (negb <$> duplicated [] (column_names df)) (columns df) |} in
  let df := {| index := index df;
               columns := (λ c, (PyStr.strip c.1, c.2)) <$> columns df |} in
  if bool_decide (column ∉ column_names df) then Err KeyError
  else
    sel ←r getitem df column;
    let sel := match sel with
               | OneSeries cells =>
                   OneSeries (astype_str <$> filter (λ v, isna v = false) cells)
               | SubFrame cols => SubFrame cols
               end in
    cells ←r str_accessor sel;
    let unique_values :=
      unique [] (omap (λ v, match v with VStr s => Some s | _ => None end)
                      (str_method PyStr.strip cells)) in
    if bool_decide (mode = "not-in") then Ok (filter (λ t, t ∉ args) unique_values)
    else if bool_decide (mode = "in") then Ok (filter (λ t, t ∈ args) unique_values)
    else Err ValueError.

(** [col: str | list] *)
Inductive col_arg :=
  | OneColumn (col : string)
  | ColumnList (cols : list string).

Definition clean_key_column (df : DataFrame) (col : string) : result DataFrame :=
  if bool_decide (col ∉ column_names df) then Err KeyError
  else
    sel ←r getitem df col;
    let sel := match sel with
               | OneSeries cells => OneSeries (astype_str <$> cells)
               | SubFrame cols => SubFrame cols
               end in
    cells ←r str_accessor sel;
    let df := setitem df col (str_method PyStr.upper (str_method PyStr.strip cells)) in
    sel ←r getitem df col;
    match sel with
    | OneSeries cells => Ok (setitem df col (replace "NONE" VNA (replace "NAN" VNA cells)))
    | SubFrame _ => Err AttributeError
    end.

Fixpoint clean_key_loop (column_list : list string) (df : DataFrame) : result DataFrame :=
  match column_list with
  | [] => Ok df
  | col :: rest =>
      df ←r clean_key_column df col;
      clean_key_loop rest df
  end.

Definition clean_key (col : col_arg) (df : DataFrame) : result DataFrame :=
  let column_list := match col with OneColumn c => [c] | ColumnList l => l end in
  clean_key_loop column_list df.

(** ** Reading a spreadsheet *)

(** [Path(path).name]: the last component that is neither empty nor [.]. *)
Fixpoint split_slash (s : string) : list string :=
  match s with
  | EmptyString => [EmptyString]
  | String a s' =>
      match split_slash s' with
      | c :: cs => if Ascii.eqb a "/" then EmptyString :: c :: cs else String a c :: cs
      | [] => [String a EmptyString]
      end
  end.

Definition path_name (path : string) : string :=
  default "" (last (filter (λ c, c ≠ "" ∧ c ≠ ".") (split_slash path))).

(** [Path(path).suffix]: from the last dot of the name, unless that dot
    starts or ends the name. *)
Definition path_suffix (path : string) : string :=
  let name := path_name path in
  match PyStr.rfind "." name with
  | Some i => if bool_decide (0 < i < String.length name - 1)%nat
              then PyStr.drop i name else ""
  | None => ""
  end.

Definition engines : gmap string string :=
  list_to_map [(".xlsx", "openpyxl"); (".xlsm", "openpyxl");
               (".xls", "xlrd"); (".xlsb", "pyxlsb")].

Inductive warning :=
  | UncataloguedExtension (ext : string)
  | MissingPackage (ext needed_pkg : string)
  | ReadFailure (name : string).

(** What the reader does that can be observed: the warnings it emits and
    its call of [pd.read_excel] with the final keyword arguments. *)
Inductive event :=
  | Warn (w : warning)
  | ReadExcel (path : string) (kwargs : gmap string string).

Section Reader.

(** [pd.read_excel], on the files the reader is given. *)
Variable read_excel : string → gmap string string → result DataFrame.

Definition read_safe_excel (fs : filesystem) (path : string)
    (kwargs : gmap string string) : list event * result DataFrame :=
  match validate_file fs path with
  | Err e => ([], Err e)
  | Ok _ =>
      let ext := PyStr.lower (path_suffix path) in
      let '(warned, kwargs) :=
        match engines !! ext, kwargs !! "engine" with
        | Some engine, None => ([], <["engine" := engine]> kwargs)
        | _, None => ([Warn (UncataloguedExtension ext)], kwargs)
        | _, Some _ => ([], kwargs)
        end in
      let called := (warned ++ [ReadExcel path kwargs])%list in
      match read_excel path kwargs with
      | Ok df => (called, Ok df)
      | Err ImportError =>
          let needed_pkg := default "o motor adequado" (engines !! ext) in
          ((called ++ [Warn (MissingPackage ext needed_pkg)])%list, Err ImportError)
      | Err e => ((called ++ [Warn (ReadFailure (path_name path))])%list, Err e)
      end
  end.

End Reader.

(** ** Configuration ([settings.py]) *)

(** Parsed YAML data. *)
#[local] Unset Elimination Schemes.
Inductive yaml :=
  | YNull
  | YStr (s : string)
  | YInt (n : Z)
  | YSeq (items : list yaml)
  | YMap (entries : list (string * yaml)).
#[local] Set Elimination Schemes.

(** [d.get(key)] on a parsed mapping. *)
Fixpoint dict_get (entries : list (string * yaml)) (key : string) : option yaml :=
  match entries with
  | [] => None
  | (k, v) :: entries' => if bool_decide (k = key) then Some v else dict_get entries' key
  end.

Inductive path_type := FilePath | DirectoryPath.

Global Instance path_type_eq_dec : EqDecision path_type.
Proof. solve_decision. Defined.

(** The fields of [PathConfig], in declaration order. *)
Definition PathConfig_fields : list (string * path_type) :=
  [("base", FilePath); ("cadastro", FilePath); ("gka_por_segmento", FilePath);
   ("lista_gka", FilePath); ("portfolio", FilePath); ("oem", FilePath);
   ("sellin", FilePath); ("output_path", DirectoryPath)].

(** A validated [PathConfig]: the path of every field, in field order. *)
Record PathConfig := { field_paths : list (string * string) }.

(** One entry of pydantic's [ValidationError.errors()]. *)
Record error_details := { loc : string; type : string; msg : string }.

(** pydantic's check of one field: it must be given, be a string, and name
    an existing file (or directory). *)
Definition validate_field (fs : filesystem) (data : list (string * yaml))
    (f : string * path_type) : error_details + string :=
  match dict_get data f.1 with
  | None => inl {| loc := f.1; type := "missing"; msg := "Field required" |}
  | Some (YStr p) =>
      match f.2, kind <$> fs !! p with
      | FilePath, Some RegularFile => inr p
      | DirectoryPath, Some Directory => inr p
      | FilePath, _ =>
          inl {| loc := f.1; type := "path_not_file";
                 msg := "Path does not point to a file" |}
      | DirectoryPath, _ =>
          inl {| loc := f.1; type := "path_not_directory";
                 msg := "Path does not point to a directory" |}
      end
  | Some _ => inl {| loc := f.1; type := "path_type"; msg := "Input is not a valid path" |}
  end.

Definition field_errors (fs : filesystem) (data : list (string * yaml))
  : list error_details :=
  omap (λ f, match validate_field fs data f with inl e => Some e | inr _ => None end)
       PathConfig_fields.

(** Building a [PathConfig] from the [paths] mapping: pydantic validates
    every field and raises one [ValidationError] carrying all the errors
    found. *)
Definition PathConfig_init (fs : filesystem) (data : list (string * yaml))
  : list error_details + PathConfig :=
  match field_errors fs data with
  | [] => inr {| field_paths :=
                   omap (λ f, match validate_field fs data f with
                              | inr p => Some (f.1, p)
                              | inl _ => None
                              end) PathConfig_fields |}
  | errors => inl errors
  end.

Record Settings := { _paths : PathConfig; _colors : yaml; _outputs : yaml }.

(** The lines [Settings.__init__] prints on the console. *)
Inductive console_line :=
  | ConfigNotFound
  | Validated
  | IntegrityFailure
  | FieldLine (campo msg : string)
  | Interrupting
  | Unexpected.

(** The state of the configuration file on disk. *)
Inductive config_file :=
  | Absent
  | Unreadable
  | Parsed (raw_data : yaml).

(** [raw_data.get(key, {})] followed by a use as a mapping. *)
Definition get_mapping (raw_data : yaml) (key : string) : option (list (string * yaml)) :=
  match raw_data with
  | YMap entries =>
      match dict_get entries key with
      | None => Some []
      | Some (YMap sub) => Some sub
      | Some _ => None
      end
  | _ => None
  end.

Definition report_line (error : error_details) : console_line :=
  let campo := loc error in
  let msg := if PyStr.contains "file_path" (type error)
             then "Arquivo não encontrado no diretório especificado."
             else msg error in
  FieldLine campo msg.


(** Whether pydantic rejects the given field. *)
Definition field_fails (fs : filesystem) (data : list (string * yaml))
    (f : string * path_type) : bool :=
  match validate_field fs data f with
  | inl _ => true
  | inr _ => false
  end.

Definition Settings_init (fs : filesystem) (config : config_file)
  : list console_line * result Settings :=
  match config with
  | Absent => ([ConfigNotFound], Err (RuntimeError "Configuração inválida"))
  | Unreadable => ([Unexpected], Err (RuntimeError "Erro Inesperado"))
  | Parsed raw_data =>
      match get_mapping raw_data "paths" with
      | None => ([Unexpected], Err (RuntimeError "Erro Inesperado"))
      | Some data =>
          match PathConfig_init fs data with
          | inl errors =>
              (([IntegrityFailure] ++ (report_line <$> errors) ++ [Interrupting])%list,
               Err (RuntimeError "Código Interrompido"))
          | inr paths =>
              match get_mapping raw_data "ui", get_mapping raw_data "outputs" with
              | Some ui, Some outputs =>
                  ([Validated],
                   Ok {| _paths := paths;
                         _colors := default (YSeq []) (dict_get ui "colors");
                         _outputs := default (YSeq []) (dict_get outputs "file_name") |})
              | _, _ => ([Unexpected], Err (RuntimeError "Erro Inesperado"))
              end
          end
      end
  end.

(** *** The [!join] tag

    [join_constructor] receives the sequence node as the list of Python
    values [construct_sequence] builds.  The fragments of a path are
    scalars: strings, integers or null; nested sequences are left out. *)

Inductive fragment :=
  | FStr (s : string)
  | FInt (n : Z)
  | FNull.

(** [str(i)] *)
Definition fragment_str (i : fragment) : string :=
  match i with
  | FStr s => s
  | FInt n => PyStr.of_Z n
  | FNull => "None"
  end.

Definition join_constructor (seq : list fragment) : string :=
  foldr String.append "" (fragment_str <$> seq).

(** ** The transforms as Python runs them: tables as objects

    DataFrames are objects in a store and a variable holds a reference.
    [copy], [drop], [set_axis] and boolean indexing build a new object;
    [df[col] = ...] and [df.columns = ...] write into the object the
    variable refers to. *)

Module Store.

Abbreviation ref := nat (only parsing).
Abbreviation store := (gmap nat DataFrame) (only parsing).

(** A computation reads and writes the store and returns or raises. *)
Definition st (A : Type) : Type := store → result A * store.

Definition ret {A} (a : A) : st A := λ h, (Ok a, h).
Definition raise {A} (e : exn) : st A := λ h, (Err e, h).
Definition bind {A B} (m : st A) (k : A → st B) : st B :=
  λ h, match m h with
       | (Ok a, h') => k a h'
       | (Err e, h') => (Err e, h')
       end.

Notation "x ←s m ; k" := (bind m (λ x, k))
  (at level 100, m at next level, right associativity, only parsing).

(** Reading through a reference. *)
Definition load (r : ref) : st DataFrame :=
  λ h, match h !! r with
       | Some d => (Ok d, h)
       | None => (Err OtherError, h)
       end.

(** A new object. *)
Definition alloc (d : DataFrame) : st ref :=
  λ h, let r := fresh (dom h) in (Ok r, <[r := d]> h).

(** Writing into an existing object. *)
Definition write (r : ref) (d : DataFrame) : st unit :=
  λ h, (Ok (), <[r := d]> h).

Definition lift {A} (x : result A) : st A :=
  match x with
  | Ok a => ret a
  | Err e => raise e
  end.

(** [df.copy()] *)
Definition copy (df : ref) : st ref :=
  d ←s load df; alloc d.

(** [df.drop(labels)] *)
Definition drop (labels : list Z) (df : ref) : st ref :=
  d ←s load df; d' ←s lift (drop_rows labels d); alloc d'.

(** [df.drop(names, axis=1)] *)
Definition drop_axis1 (names : list string) (df : ref) : st ref :=
  d ←s load df; d' ←s lift (drop_columns names d); alloc d'.

(** [df.columns] *)
Definition get_columns (df : ref) : st (list string) :=
  d ←s load df; ret (column_names d).

Definition remove_lines (args : list Z) (mode : string) (df : ref) : st ref :=
  match bool_decide (mode = "interval"), args with
  | true, [n] => drop (py_range 0 n) df
  | true, [a; b] => drop (py_range a b) df
  | _, _ => drop args df
  end.

Definition remove_columns (args : list Z) (mode : string) (df : ref) : st ref :=
  match bool_decide (mode = "interval"), args with
  | true, [n] =>
      cols ←s get_columns df; drop_axis1 (py_slice 0 n cols) df
  | true, [a; b] =>
      cols ←s get_columns df; drop_axis1 (py_slice a b cols) df
  | _, _ =>
      cols ←s get_columns df;
      names ←s lift (py_items cols args);
      drop_axis1 names df
  end.

Definition rename_columns (args : list string) (df : ref) : st ref :=
  d ←s load df; d' ←s lift (set_axis args d); alloc d'.

Definition filter_columns (column : string) (args : filter_args) (df : ref) : st ref :=
  let values := filter_values args in
  d ←s load df;
  sel ←s lift (getitem d column);
  cells ←s lift (str_accessor sel);
  selected ←s alloc (select_rows (isin values <$> str_method PyStr.strip cells) d);
  copy selected.

Definition extract_column (column mode : string) (args : list string) (df : ref)
  : st (list string) :=
  d ←s load df;
  picked ←s alloc {| index := index d;
                     columns := select (negb <$> duplicated [] (column_names d)) (columns d) |};
  df ←s copy picked;
  d ←s load df;
  _ ←s write df {| index := index d;
                   columns := (λ c, (PyStr.strip c.1, c.2)) <$> columns d |};
  cols ←s get_columns df;
  if bool_decide (column ∉ cols) then raise KeyError
  else
    d ←s load df;
    sel ←s lift (getitem d column);
    let sel := match sel with
               | OneSeries cells =>
                   OneSeries (astype_str <$> filter (λ v, isna v = false) cells)
               | SubFrame cols => SubFrame cols
               end in
    cells ←s lift (str_accessor sel);
    let unique_values :=
      unique [] (omap (λ v, match v with VStr s => Some s | _ => None end)
                      (str_method PyStr.strip cells)) in
    if bool_decide (mode = "not-in") then ret (filter (λ t, t ∉ args) unique_values)
    else if bool_decide (mode = "in") then ret (filter (λ t, t ∈ args) unique_values)
    else raise ValueError.

(** One turn of the loop of [clean_key], on the copy [df]. *)
Definition clean_key_column (df : ref) (col : string) : st unit :=
  cols ←s get_columns df;
  if bool_decide (col ∉ cols) then raise KeyError
  else
    d ←s load df;
    sel ←s lift (getitem d col);
    let sel := match sel with
               | OneSeries cells => OneSeries (astype_str <$> cells)
               | SubFrame cols => SubFrame cols
               end in
    cells ←s lift (str_accessor sel);
    _ ←s write df (setitem d col (str_method PyStr.upper (str_method PyStr.strip cells)));
    d ←s load df;
    sel ←s lift (getitem d col);
    match sel with
    | OneSeries cells => write df (setitem d col (replace "NONE" VNA (replace "NAN" VNA cells)))
    | SubFrame _ => raise AttributeError
    end.

Fixpoint clean_key_loop (column_list : list string) (df : ref) : st unit :=
  match column_list with
  | [] => ret ()
  | col :: rest => _ ←s clean_key_column df col; clean_key_loop rest df
  end.

Definition clean_key (col : col_arg) (df : ref) : st ref :=
  let column_list := match col with OneColumn c => [c] | ColumnList l => l end in
  df ←s copy df;
  _ ←s clean_key_loop column_list df;
  ret df.

(** A computation leaves the store intact when every table that was in
    it is still there, unchanged, afterwards, whatever the outcome. *)
Definition leaves_intact {A} (h : store) (m : st A) : Prop := h ⊆ (m h).2.

(** A computation returns a new table when the reference it returns was
    not in use before. *)
Definition returns_new (h : store) (m : st ref) : Prop :=
  ∀ out, (m h).1 = Ok out → h !! out = None.

(** The outcome of a transform on objects matches its outcome on values. *)
Definition agrees (r : result DataFrame) (out : result ref * store) : Prop :=
  match r, out with
  | Ok d, (Ok l, h') => h' !! l = Some d
  | Err e, (Err e', _) => e = e'
  | _, _ => False
  end.

End Store.

(** ** What the specification says of row removal and row filtering

    These follow the words of the specification, not the code; the
    properties below compare them with the transforms. *)

(** The positions the specification says [remove_rows] deletes. *)
Definition spec_row_targets (mode : string) (indices : list Z) : option (list Z) :=
  if bool_decide (mode = "individual") then Some indices
  else if bool_decide (mode = "interval") then
    match indices with
    | [n] => Some (py_range 0 n)
    | [a; b] => Some (py_range a b)
    | _ => None
    end
  else None.

(** Deleting by 0-based position in the current ordering: the element at
    position [i] goes when [i] is a target; [from] is the position of the
    head of the list. *)
Fixpoint spec_delete_positions {A} (from : Z) (targets : list Z) (l : list A) : list A :=
  match l with
  | [] => []
  | x :: l' =>
      if bool_decide (from ∈ targets) then spec_delete_positions (from + 1) targets l'
      else x :: spec_delete_positions (from + 1) targets l'
  end.

(** A row is kept by the filter when its cell in the column at position
    [j] is a string that, trimmed, is one of the values. *)
Definition spec_row_matches (j : nat) (values : list string)
    (row : Z * list (option value)) : bool :=
  match row.2 !! j with
  | Some (Some (VStr s)) => bool_decide (PyStr.strip s ∈ values)
  | _ => false
  end.

(** Keeping, of the columns that share a name, the first one. *)
Fixpoint spec_keep_first (cols : list (string * list value)) : list (string * list value) :=
  match cols with
  | [] => []
  | c :: cols' => c :: filter (λ c', c'.1 ≠ c.1) (spec_keep_first cols')
  end.

(** Removing repetitions, each value staying where it was first seen. *)
Fixpoint spec_first_seen (l : list string) : list string :=
  match l with
  | [] => []
  | x :: l' => x :: filter (λ y, y ≠ x) (spec_first_seen l')
  end.

(** The trimmed string form of a cell that is not missing. *)
Definition spec_trimmed_text (v : value) : string :=
  match v with
  | VInt n => PyStr.strip (PyStr.of_Z n)
  | VStr s => PyStr.strip s
  | _ => ""
  end.

(** [extract_unique_values] as the specification words it, the column
    asked for being the first one of that name. *)
Definition spec_extract_unique_values (column mode : string) (values : list string)
    (df : DataFrame) : result (list string) :=
  let cols := (λ c, (PyStr.strip c.1, c.2)) <$> spec_keep_first (columns df) in
  match filter (λ c, c.1 = column) cols with
  | [] => Err KeyError
  | c :: _ =>
      let found :=
        spec_first_seen (spec_trimmed_text <$> filter (λ v, isna v = false) c.2) in
      if bool_decide (mode = "not-in") then Ok (filter (λ t, t ∉ values) found)
      else if bool_decide (mode = "in") then Ok (filter (λ t, t ∈ values) found)
      else Err ValueError
  end.

(** What [normalize_key] makes of one cell: its string form, trimmed and
    upper-cased, or the missing marker when that reads NAN or NONE. *)
Definition clean_key_cell (v : value) : value :=
  let t := PyStr.upper (PyStr.strip (match astype_str v with VStr s => s | _ => "" end)) in
  if bool_decide (t = "NAN") then VNA
  else if bool_decide (t = "NONE") then VNA
  else VStr t.

(** ** Sample data *)

(** The fixture of [tests/test_utils.py]. *)
Definition df_exemplo : DataFrame :=
  {| index := [0; 1; 2; 3; 4];
     columns := [("A", [VInt 1; VInt 2; VInt 3; VInt 4; VInt 5]);
                 ("B", [VStr "  Varejo  "; VStr "Atacado"; VStr " Varejo"; VStr "Outro"; VStr "Atacado"]);
                 ("C", [VInt 10; VInt 20; VInt 30; VInt 40; VInt 50])] |}.

Definition fs_exemplo : filesystem :=
  {[ "data/input.xlsx" := {| kind := RegularFile; readable := true |};
     "data/locked.xls" := {| kind := RegularFile; readable := false |};
     "data/notes.txt" := {| kind := RegularFile; readable := true |} ]}.

Definition readable_file : entry := {| kind := RegularFile; readable := true |}.

(** A disk holding every file a complete configuration names. *)
Definition fs_config : filesystem :=
  {[ "data/base.xlsx" := readable_file; "data/cadastro.xlsx" := readable_file;
     "data/gka.xlsx" := readable_file; "data/lista.xlsx" := readable_file;
     "data/portfolio.xlsx" := readable_file; "data/oem.xlsx" := readable_file;
     "data/sellin.xlsx" := readable_file;
     "out" := {| kind := Directory; readable := true |} ]}.

Definition paths_completo : list (string * yaml) :=
  [("base", YStr "data/base.xlsx"); ("cadastro", YStr "data/cadastro.xlsx");
   ("gka_por_segmento", YStr "data/gka.xlsx"); ("lista_gka", YStr "data/lista.xlsx");
   ("portfolio", YStr "data/portfolio.xlsx"); ("oem", YStr "data/oem.xlsx");
   ("sellin", YStr "data/sellin.xlsx"); ("output_path", YStr "out")].

Definition config_completo : yaml :=
  YMap [("paths", YMap paths_completo);
        ("ui", YMap [("colors", YSeq [YStr "red"])])].



(** The fixture after [remove_lines(1)]: the labels are no longer the
    positions. *)
Definition df_sem_linha_1 : DataFrame :=
  {| index := [0; 2; 3; 4];
     columns := [("A", [VInt 1; VInt 3; VInt 4; VInt 5]);
                 ("B", [VStr "  Varejo  "; VStr " Varejo"; VStr "Outro"; VStr "Atacado"]);
                 ("C", [VInt 10; VInt 30; VInt 40; VInt 50])] |}.

(** A key column with padding, a missing cell and the text "nan". *)
Definition df_chaves : DataFrame :=
  {| index := [0; 1; 2; 3];
     columns := [("X", [VStr " ab "; VNone; VStr "nan"; VInt 7])] |}.

(** Two columns whose names differ only by a leading blank. *)
Definition df_nomes_com_espaco : DataFrame :=
  {| index := [0; 1];
     columns := [("KAM", [VStr "Ana"; VStr "Rui"]);
                 (" KAM", [VStr "Eva"; VStr "Ana"])] |}.

(** A table in which two columns share the name A. *)
Definition df_nome_repetido : DataFrame :=
  {| index := [0; 1];
     columns := [("A", [VInt 1; VInt 2]); ("B", [VStr "x"; VStr "y"]);
                 ("A", [VInt 3; VInt 4])] |}.

(** Splits a goal into its conjuncts, leaving equations alone. *)
Ltac split_all := repeat match goal with |- _ ∧ _ => split end.

(** * Properties *)

(** ** Fiscal period and file guard *)

(** C4: for a month in 1..12 the period follows the three-branch rule
    (April is "1", May onwards is the month minus 3, January to March is
    the month plus 9), and a month outside 1..12 raises [ValueError]. *)
Theorem current_ano_safra_three_branches (now m : Z) :
  (m = 4 → current_ano_safra now (Some m) = Ok "1") ∧
  (5 ≤ m ≤ 12 → current_ano_safra now (Some m) = Ok (PyStr.of_Z (m - 3))) ∧
  (1 ≤ m ≤ 3 → current_ano_safra now (Some m) = Ok (PyStr.of_Z (m + 9))) ∧
  (¬ (1 ≤ m ≤ 12) → current_ano_safra now (Some m) = Err ValueError).
Proof.
  unfold current_ano_safra. split_all; intros H.
  - subst m. reflexivity.
  - destruct (Z.leb_spec 1 m), (Z.leb_spec m 12); try lia. simpl.
    destruct (Z.eqb_spec m 4); [lia|].
    destruct (Z.leb_spec 5 m); [reflexivity|lia].
  - destruct (Z.leb_spec 1 m), (Z.leb_spec m 12); try lia. simpl.
    destruct (Z.eqb_spec m 4); [lia|].
    destruct (Z.leb_spec 5 m); [lia|reflexivity].
  - destruct (Z.leb_spec 1 m), (Z.leb_spec m 12); simpl; try reflexivity. lia.
Qed.

Lemma current_ano_safra_examples :
  current_ano_safra 7 (Some 4) = Ok "1" ∧
  current_ano_safra 7 (Some 9) = Ok "6" ∧
  current_ano_safra 7 (Some 1) = Ok "10" ∧
  current_ano_safra 7 (Some 13) = Err ValueError.
Proof.
  split_all.
  - apply (proj1 (current_ano_safra_three_branches 7 4)). reflexivity.
  - apply (proj1 (proj2 (current_ano_safra_three_branches 7 9))). lia.
  - apply (proj1 (proj2 (proj2 (current_ano_safra_three_branches 7 1)))). lia.
  - apply (proj2 (proj2 (proj2 (current_ano_safra_three_branches 7 13)))). lia.
Defined.



(** ** The spreadsheet reader *)

Lemma engines_lookup (ext : string) :
  engines !! ext =
    if bool_decide (ext = ".xlsx") then Some "openpyxl"
    else if bool_decide (ext = ".xlsm") then Some "openpyxl"
    else if bool_decide (ext = ".xls") then Some "xlrd"
    else if bool_decide (ext = ".xlsb") then Some "pyxlsb"
    else None.
Proof.
  unfold engines. simpl.
  repeat (case_bool_decide; [subst; by simplify_map_eq|]).
  by simplify_map_eq.
Qed.

(** C8: the reader runs [validate_file] first and hands its failure on as
    it is, without reading.  Otherwise it calls [pd.read_excel] with the
    engine the caller gave, or else with the engine the extension maps to
    (.xlsx and .xlsm to openpyxl, .xls to xlrd, .xlsb to pyxlsb), or else,
    after a warning, with no engine at all. *)
Theorem read_safe_excel_engine_choice
    (read_excel : string → gmap string string → result DataFrame)
    (fs : filesystem) (path : string) (kwargs : gmap string string) :
  let ext := PyStr.lower (path_suffix path) in
  let out := read_safe_excel read_excel fs path kwargs in
  (∀ e, validate_file fs path = Err e → out = ([], Err e)) ∧
  (validate_file fs path = Ok true →
     (∀ g, kwargs !! "engine" = Some g →
        ∃ after, out.1 = ReadExcel path kwargs :: after ∧
                 out.2 = read_excel path kwargs) ∧
     (kwargs !! "engine" = None →
        ∀ g, (ext = ".xlsx" ∧ g = "openpyxl") ∨ (ext = ".xlsm" ∧ g = "openpyxl") ∨
             (ext = ".xls" ∧ g = "xlrd") ∨ (ext = ".xlsb" ∧ g = "pyxlsb") →
        ∃ after, out.1 = ReadExcel path (<["engine" := g]> kwargs) :: after ∧
                 out.2 = read_excel path (<["engine" := g]> kwargs)) ∧
     (kwargs !! "engine" = None →
        ext ∉ [".xlsx"; ".xlsm"; ".xls"; ".xlsb"] →
        ∃ after, out.1 = Warn (UncataloguedExtension ext)
                         :: ReadExcel path kwargs :: after ∧
                 out.2 = read_excel path kwargs)).
Proof.
  intros ext out. subst out. unfold read_safe_excel. fold ext. split_all.
  { intros e ->. reflexivity. }
  intros ->. split_all.
  - intros g Hg. rewrite Hg.
    destruct (engines !! ext); simpl;
      destruct (read_excel path kwargs) as [?|[]]; simpl; eauto.
  - intros Hnone g Hext. rewrite Hnone.
    assert (engines !! ext = Some g) as ->.
    { rewrite engines_lookup.
      destruct Hext as [[-> ->]|[[-> ->]|[[-> ->]|[-> ->]]]]; reflexivity. }
    simpl. destruct (read_excel path _) as [?|[]]; simpl; eauto.
  - intros Hnone Hext. rewrite Hnone.
    assert (engines !! ext = None) as ->.
    { rewrite engines_lookup. clearbody ext.
      repeat (case_bool_decide; [exfalso; apply Hext; subst ext; set_solver|]).
      reflexivity. }
    simpl. destruct (read_excel path kwargs) as [?|[]]; simpl; eauto.
Qed.

Lemma read_safe_excel_examples :
  let reader := λ (_ : string) (_ : gmap string string), Ok df_exemplo in
  read_safe_excel reader fs_exemplo "data/missing.xlsx" ∅ = ([], Err FileNotFoundError) ∧
  (∃ after,
     (read_safe_excel reader fs_exemplo "data/input.xlsx" {["engine" := "calamine"]}).1
     = ReadExcel "data/input.xlsx" {["engine" := "calamine"]} :: after) ∧
  (∃ after,
     (read_safe_excel reader fs_exemplo "data/input.xlsx" ∅).1
     = ReadExcel "data/input.xlsx" {["engine" := "openpyxl"]} :: after) ∧
  (∃ after,
     (read_safe_excel reader fs_exemplo "data/notes.txt" ∅).1
     = Warn (UncataloguedExtension ".txt") :: ReadExcel "data/notes.txt" ∅ :: after).
Proof.
  intros reader. split_all.
  - apply (proj1 (read_safe_excel_engine_choice reader fs_exemplo "data/missing.xlsx" ∅)).
    reflexivity.
  - destruct (read_safe_excel_engine_choice reader fs_exemplo
                "data/input.xlsx" {["engine" := "calamine"]}) as [_ H].
    destruct H as [H _]; [reflexivity|].
    destruct (H "calamine") as [after [Hcall _]]; [reflexivity|].
    exists after. exact Hcall.
  - destruct (read_safe_excel_engine_choice reader fs_exemplo
                "data/input.xlsx" ∅) as [_ H].
    destruct H as [_ [H _]]; [reflexivity|].
    destruct (H eq_refl "openpyxl") as [after [Hcall _]].
    { left. split; reflexivity. }
    exists after. exact Hcall.
  - destruct (read_safe_excel_engine_choice reader fs_exemplo
                "data/notes.txt" ∅) as [_ H].
    destruct H as [_ [_ H]]; [reflexivity|].
    destruct H as [after [Hcall _]]; [reflexivity| |].
    { apply (bool_decide_unpack _). vm_compute. exact I. }
    exists after. exact Hcall.
Defined.

(** ** Configuration *)




Lemma field_errors_sound (fs : filesystem) (data : list (string * yaml))
    (e : error_details) :
  e ∈ field_errors fs data →
  ∃ f, f ∈ PathConfig_fields ∧ validate_field fs data f = inl e.
Proof.
  unfold field_errors. intros (f & Hf & He)%list_elem_of_omap.
  exists f. split; [done|]. destruct (validate_field fs data f); congruence.
Qed.





(** ** Row and column removal *)

(** *** Masks, rows and positions *)

Section Select.
Context {A : Type}.
Implicit Types (mask : list bool) (l : list A).

Lemma select_nil_r mask : select mask (@nil A) = [].
Proof. by destruct mask. Qed.

Lemma select_true mask x l : select (true :: mask) (x :: l) = x :: select mask l.
Proof. done. Qed.

Lemma select_false_tail mask l : select (false :: mask) l = select mask (tail l).
Proof. destruct l; simpl; [by rewrite select_nil_r|done]. Qed.

(** A mask computed row by row selects what [filter] keeps. *)
Lemma select_fmap_filter (f : A → bool) l : select (f <$> l) l = filter (λ x, f x) l.
Proof.
  induction l as [|x l IH]; [done|]. cbn [fmap list_fmap select].
  destruct (f x) eqn:Hf.
  - rewrite filter_cons_True by (simpl; rewrite Hf; exact I). by rewrite IH.
  - rewrite filter_cons_False by (simpl; rewrite Hf; exact id). exact IH.
Qed.

End Select.

Lemma rows_of_labels (idx : list Z) (cols : list (list value)) :
  (rows_of idx cols).*1 = idx.
Proof.
  revert cols. induction idx as [|l idx IH]; intros cols; [done|].
  simpl. by rewrite IH.
Qed.

(** Selecting in every column, then reading rows, is selecting rows. *)
Lemma rows_of_select (mask : list bool) (idx : list Z) (cols : list (list value)) :
  Forall (λ c, length c = length idx) cols →
  rows_of (select mask idx) (select mask <$> cols) = select mask (rows_of idx cols).
Proof.
  revert idx cols. induction mask as [|b mask IH]; intros idx cols Hlen; [done|].
  destruct idx as [|l idx]; [done|].
  assert (Forall (λ c, length c = length idx) (tail <$> cols)) as Htl.
  { apply Forall_fmap. eapply Forall_impl; [exact Hlen|].
    intros [|x c]; simpl; [done|]. by intros [= ->]. }
  destruct b; cbn [select rows_of].
  - f_equal.
    + f_equal. rewrite <- list_fmap_compose. apply Forall_fmap_ext.
      eapply Forall_impl; [exact Hlen|]. by intros [|x c].
    + rewrite <- IH by done. f_equal. rewrite <- !list_fmap_compose.
      apply Forall_fmap_ext. eapply Forall_impl; [exact Hlen|]. by intros [|x c].
  - rewrite <- IH by done. f_equal. rewrite <- !list_fmap_compose.
    apply Forall_fmap_ext. eapply Forall_impl; [exact Hlen|]. by intros [|x c].
Qed.

Lemma rows_select_rows (mask : list bool) (df : DataFrame) :
  wf df → rows (select_rows mask df) = select mask (rows df).
Proof.
  intros Hwf. unfold rows, select_rows. cbn [index columns].
  rewrite <- rows_of_select.
  - f_equal. rewrite <- !list_fmap_compose. done.
  - apply Forall_fmap. exact Hwf.
Qed.

Lemma column_names_select_rows (mask : list bool) (df : DataFrame) :
  column_names (select_rows mask df) = column_names df.
Proof.
  unfold column_names, select_rows. cbn [columns].
  rewrite <- list_fmap_compose. done.
Qed.

(** The mask of [df.drop(labels)], read on the rows. *)
Lemma drop_rows_mask_on_rows (labels : list Z) (df : DataFrame) :
  (λ l, bool_decide (l ∉ labels)) <$> index df
  = (λ r : Z * list (option value), bool_decide (r.1 ∉ labels)) <$> rows df.
Proof.
  unfold rows. rewrite <- (rows_of_labels (index df) (columns df).*2) at 1.
  by rewrite <- list_fmap_compose.
Qed.

(** Dropping rows by label. *)
Lemma drop_rows_spec (labels : list Z) (df : DataFrame) :
  wf df →
  (Forall (λ l, l ∈ index df) labels →
     ∃ out, drop_rows labels df = Ok out ∧
            column_names out = column_names df ∧
            rows out = filter (λ r, r.1 ∉ labels) (rows df)) ∧
  (¬ Forall (λ l, l ∈ index df) labels → drop_rows labels df = Err KeyError).
Proof.
  intros Hwf. unfold drop_rows. split; intros Hall.
  - rewrite bool_decide_eq_true_2 by done. eexists. split_all; [done| |].
    + apply column_names_select_rows.
    + rewrite rows_select_rows by done.
      rewrite drop_rows_mask_on_rows, select_fmap_filter.
      apply list_filter_iff. intros r. by rewrite bool_decide_spec.
  - by rewrite bool_decide_eq_false_2.
Qed.

(** When the labels are the positions, filtering on the label is deleting
    by position. *)
Lemma filter_labels_positions {B} (from : Z) (targets : list Z) (rs : list (Z * B)) :
  rs.*1 = seqZ from (Z.of_nat (length rs)) →
  filter (λ r, r.1 ∉ targets) rs = spec_delete_positions from targets rs.
Proof.
  revert from. induction rs as [|[l c] rs IH]; intros from Hidx; [done|].
  rewrite length_cons, Nat2Z.inj_succ, seqZ_cons in Hidx by lia.
  cbn [fmap list_fmap fst] in Hidx. injection Hidx as -> Hidx.
  rewrite Z.pred_succ in Hidx. change (Z.succ from) with (from + 1) in Hidx.
  cbn [spec_delete_positions]. case_bool_decide.
  - rewrite filter_cons_False by (simpl; tauto). by apply IH.
  - rewrite filter_cons_True by done. f_equal. by apply IH.
Qed.

(** C1 (as amended): [remove_lines] addresses rows by index label.  For
    the three forms the specification describes (individual, interval with
    one index, interval with two) the rows whose label is targeted are
    deleted, and a targeted label that is absent raises [KeyError].  On a
    table with the default index 0..len-1, labels are positions, so the
    rows at the targeted positions are deleted, as long as they all lie
    inside the table. *)
Theorem remove_lines_by_label (args : list Z) (mode : string) (targets : list Z)
    (df : DataFrame) :
  wf df →
  spec_row_targets mode args = Some targets →
  (Forall (λ t, t ∈ index df) targets →
     ∃ out, remove_lines args mode df = Ok out ∧
            column_names out = column_names df ∧
            rows out = filter (λ r, r.1 ∉ targets) (rows df)) ∧
  (¬ Forall (λ t, t ∈ index df) targets → remove_lines args mode df = Err KeyError) ∧
  (index df = seqZ 0 (Z.of_nat (length (index df))) →
   Forall (λ t, 0 ≤ t < Z.of_nat (length (index df))) targets →
     ∃ out, remove_lines args mode df = Ok out ∧
            column_names out = column_names df ∧
            rows out = spec_delete_positions 0 targets (rows df)).
Proof.
  intros Hwf Htargets.
  assert (remove_lines args mode df = drop_rows targets df) as ->.
  { unfold spec_row_targets in Htargets. unfold remove_lines.
    case_bool_decide as Hind.
    - injection Htargets as <-. subst mode. simpl. by destruct args as [|? [|? []]].
    - case_bool_decide; [|done].
      destruct args as [|a [|b [|c args]]]; by try injection Htargets as <-. }
  destruct (drop_rows_spec targets df Hwf) as [Hok Herr].
  split_all; [exact Hok|exact Herr|].
  intros Hidx Hin. destruct Hok as (out & Hout & Hnames & Hrows).
  { eapply Forall_impl; [exact Hin|]. intros t Ht. simpl in Ht.
    rewrite Hidx. apply elem_of_seqZ. lia. }
  exists out. split_all; [done..|]. rewrite Hrows.
  apply filter_labels_positions.
  unfold rows. rewrite rows_of_labels.
  assert (length (rows_of (index df) (columns df).*2) = length (index df)) as ->.
  { rewrite <- (rows_of_labels (index df) (columns df).*2) at 2.
    by rewrite length_fmap. }
  exact Hidx.
Qed.


Lemma remove_lines_examples :
  (∃ out, remove_lines [2] "interval" df_exemplo = Ok out ∧
          column_names out = column_names df_exemplo ∧
          rows out = filter (λ r, r.1 ∉ [0; 1]) (rows df_exemplo)) ∧
  remove_lines [1; 2] "individual" df_sem_linha_1 = Err KeyError ∧
  (∃ out, remove_lines [1; 3] "interval" df_exemplo = Ok out ∧
          column_names out = column_names df_exemplo ∧
          rows out = spec_delete_positions 0 [1; 2] (rows df_exemplo)).
Proof.
  assert (wf df_exemplo) as Hwf by (repeat constructor).
  assert (wf df_sem_linha_1) as Hwf' by (repeat constructor).
  split_all.
  - apply (proj1 (remove_lines_by_label [2] "interval" [0; 1] df_exemplo Hwf eq_refl)).
    apply (bool_decide_unpack _). vm_compute. exact I.
  - apply (proj1 (proj2 (remove_lines_by_label [1; 2] "individual" [1; 2]
                           df_sem_linha_1 Hwf' eq_refl))).
    apply (bool_decide_unpack _). vm_compute. exact I.
  - apply (proj2 (proj2 (remove_lines_by_label [1; 3] "interval" [1; 2]
                           df_exemplo Hwf eq_refl))).
    + reflexivity.
    + repeat constructor; simpl; lia.
Defined.

(** C1 as the specification has it fails: once a row is gone the labels
    of the rows after it no longer equal their positions, and the
    transform still goes by label.  On the fixture without its row 1,
    [remove_lines(2)] deletes the row labelled 2, which stands at position
    1, and not the row at position 2. *)
Lemma remove_lines_is_not_positional :
  remove_lines [1] "individual" df_exemplo = Ok df_sem_linha_1 ∧
  ¬ (∃ out, remove_lines [2] "individual" df_sem_linha_1 = Ok out ∧
            rows out = spec_delete_positions 0 [2] (rows df_sem_linha_1)).
Proof.
  split; [reflexivity|].
  intros (out & Hout & Hrows). vm_compute in Hout. injection Hout as <-.
  vm_compute in Hrows. discriminate Hrows.
Qed.

(** ** Filtering rows by value *)

(** The cell of each row in the column at position [j]. *)
Lemma rows_of_lookup {B} (g : option (option value) → B) (j : nat)
    (idx : list Z) (cols : list (list value)) (cells : list value) :
  cols !! j = Some cells → length cells = length idx →
  (λ r : Z * list (option value), g (r.2 !! j)) <$> rows_of idx cols
  = (λ v, g (Some (Some v))) <$> cells.
Proof.
  revert cols cells. induction idx as [|l idx IH]; intros cols cells Hj Hlen.
  { by destruct cells. }
  destruct cells as [|v cells]; [done|]. injection Hlen as Hlen.
  cbn [rows_of fmap list_fmap snd]. f_equal.
  - by rewrite list_lookup_fmap, Hj.
  - apply IH; [|done]. by rewrite list_lookup_fmap, Hj.
Qed.

Lemma filter_none {B} (P : B → Prop) `{!∀ x, Decision (P x)} (l : list B) :
  Forall (λ x, ¬ P x) l → filter P l = [].
Proof.
  induction 1 as [|x l Hx _ IH]; [done|]. by rewrite filter_cons_False.
Qed.

Lemma filter_other_names (column : string) (cols : list (string * list value)) :
  column ∉ cols.*1 → filter (λ c, c.1 = column) cols = [].
Proof.
  intros Hc. apply filter_none, Forall_forall. intros c Hin Heq.
  apply Hc. rewrite <- Heq. by apply list_elem_of_fmap_2.
Qed.

Lemma getitem_single (df : DataFrame) (column : string) (cells : list value)
    (before after : list (string * list value)) :
  columns df = before ++ (column, cells) :: after →
  column ∉ before.*1 → column ∉ after.*1 →
  getitem df column = Ok (OneSeries cells).
Proof.
  intros Hcols Hb Ha. unfold getitem.
  rewrite Hcols, filter_app, filter_cons_True by done.
  by rewrite !filter_other_names.
Qed.

Lemma getitem_absent (df : DataFrame) (column : string) :
  column ∉ column_names df → getitem df column = Err KeyError.
Proof.
  intros Hc. unfold getitem. by rewrite filter_other_names.
Qed.

(** A Series with a string in it offers the [.str] accessor. *)
Lemma str_accessor_text (cells : list value) (s : string) :
  VStr s ∈ cells → str_accessor (OneSeries cells) = Ok cells.
Proof.
  intros Hs. unfold str_accessor, infer_dtype.
  assert (VStr s ∈ filter (λ v, isna v = false) cells) as Hin.
  { by apply list_elem_of_filter. }
  destruct (filter _ cells) as [|v present] eqn:Hp; [by apply elem_of_nil in Hin|].
  destruct (forallb is_str (v :: present)); [done|].
  destruct (forallb is_int (v :: present)) eqn:Hint; [|done].
  rewrite forallb_forall in Hint. apply list_elem_of_In, Hint in Hin. done.
Qed.

(** C6 (as amended): on a table where exactly one column has the given
    name and that column holds at least one string, its strings being
    ASCII text, [filter_columns] keeps exactly the rows whose cell in that
    column is a string that, trimmed, is one of the values, whether these
    were passed one by one or as one collection; the other rows go.  When
    no column has the name the transform raises [KeyError]. *)
Theorem filter_columns_keeps_matching_rows (column : string) (args : filter_args)
    (df : DataFrame) :
  wf df →
  (column ∉ column_names df → filter_columns column args df = Err KeyError) ∧
  (∀ before cells after s,
     columns df = before ++ (column, cells) :: after →
     column ∉ before.*1 → column ∉ after.*1 →
     VStr s ∈ cells →
     Forall (λ v, ascii_cell v) cells →
     ∃ out, filter_columns column args df = Ok out ∧
            column_names out = column_names df ∧
            rows out = filter (λ r, spec_row_matches (length before) (filter_values args) r)
                              (rows df)).
Proof.
  intros Hwf. unfold filter_columns. split.
  - intros Habs. by rewrite getitem_absent.
  - intros before cells after s Hcols Hb Ha Hs _.
    rewrite (getitem_single df column cells before after) by done.
    cbn [rbind]. rewrite (str_accessor_text cells s) by done. cbn [rbind].
    eexists. split_all; [done| |].
    + apply column_names_select_rows.
    + rewrite rows_select_rows by done.
      rewrite <- select_fmap_filter. f_equal.
      unfold str_method. rewrite <- list_fmap_compose.
      unfold rows, spec_row_matches.
      rewrite (rows_of_lookup
                 (λ o, match o with
                       | Some (Some (VStr s)) =>
                           bool_decide (PyStr.strip s ∈ filter_values args)
                       | _ => false
                       end) (length before) (index df) (columns df).*2 cells).
      * apply list_fmap_ext. by intros i [].
      * rewrite Hcols, fmap_app, fmap_cons. simpl.
        rewrite lookup_app_r by (by rewrite length_fmap).
        by rewrite length_fmap, Nat.sub_diag.
      * unfold wf in Hwf. rewrite Hcols in Hwf.
        apply Forall_app in Hwf as [_ Hwf]. by apply Forall_cons in Hwf as [Hwf _].
Qed.

Lemma filter_columns_examples :
  filter_columns "Z" (Variadic ["Varejo"; "Atacado"]) df_exemplo = Err KeyError ∧
  (∃ out, filter_columns "B" (Variadic ["Varejo"; "Atacado"]) df_exemplo = Ok out ∧
          column_names out = column_names df_exemplo ∧
          rows out = filter (λ r, spec_row_matches 1 ["Varejo"; "Atacado"] r)
                            (rows df_exemplo) ∧
          length (rows out) = 4%nat).
Proof.
  assert (wf df_exemplo) as Hwf by (repeat constructor).
  split.
  - apply (proj1 (filter_columns_keeps_matching_rows "Z"
                    (Variadic ["Varejo"; "Atacado"]) df_exemplo Hwf)).
    apply (bool_decide_unpack _). vm_compute. exact I.
  - destruct (proj2 (filter_columns_keeps_matching_rows "B"
                       (Variadic ["Varejo"; "Atacado"]) df_exemplo Hwf)
                [("A", [VInt 1; VInt 2; VInt 3; VInt 4; VInt 5])]
                [VStr "  Varejo  "; VStr "Atacado"; VStr " Varejo"; VStr "Outro";
                 VStr "Atacado"]
                [("C", [VInt 10; VInt 20; VInt 30; VInt 40; VInt 50])]
                "Atacado" eq_refl) as (out & Hout & Hnames & Hrows).
    + apply (bool_decide_unpack _). vm_compute. exact I.
    + apply (bool_decide_unpack _). vm_compute. exact I.
    + apply (bool_decide_unpack _). vm_compute. exact I.
    + apply (bool_decide_unpack _). vm_compute. exact I.
    + exists out. split_all; [exact Hout|exact Hnames|exact Hrows|].
      rewrite Hrows. vm_compute. reflexivity.
Defined.

(** C6 as the specification has it fails on a column of numbers: the
    table does contain column A, yet the transform raises [AttributeError]
    where the specification has it return the rows that match. *)
Lemma filter_columns_rejects_numbers :
  "A" ∈ column_names df_exemplo ∧
  filter_columns "A" (Variadic ["1"]) df_exemplo = Err AttributeError ∧
  ¬ (∃ out, filter_columns "A" (Variadic ["1"]) df_exemplo = Ok out ∧
            rows out = filter (λ r, spec_row_matches 0 ["1"] r) (rows df_exemplo)).
Proof.
  split_all.
  - apply (bool_decide_unpack _). vm_compute. exact I.
  - reflexivity.
  - intros (out & Hout & _). vm_compute in Hout. discriminate Hout.
Qed.

(** ** Key normalisation *)

Lemma filter_all {B} (P : B → Prop) `{!∀ x, Decision (P x)} (l : list B) :
  Forall P l → filter P l = l.
Proof.
  induction 1 as [|x l Hx _ IH]; [done|]. by rewrite filter_cons_True, IH.
Qed.

(** The cells that survive [dropna] and [astype(str)] are text. *)
Lemma str_accessor_astype_str (cells : list value) :
  str_accessor (OneSeries (astype_str <$> cells)) = Ok (astype_str <$> cells).
Proof.
  unfold str_accessor, infer_dtype.
  rewrite filter_all by (apply Forall_fmap, Forall_true; by intros []).
  destruct cells as [|v cells]; [done|].
  assert (forallb is_str (astype_str <$> v :: cells) = true) as ->; [|done].
  apply forallb_forall. intros x (y & -> & _)%list_elem_of_In%list_elem_of_fmap.
  by destruct y.
Qed.

Section StripUpper.
Import PyStr.

Lemma upper_char_idemp (a : ascii) : upper_char (upper_char a) = upper_char a.
Proof. by destruct a as [[] [] [] [] [] [] [] []]. Qed.

Lemma is_space_upper_char (a : ascii) : is_space (upper_char a) = is_space a.
Proof. by destruct a as [[] [] [] [] [] [] [] []]. Qed.

Lemma upper_idemp (s : string) : upper (upper s) = upper s.
Proof.
  unfold upper. induction s as [|a s IH]; [done|].
  cbn [map_chars]. by rewrite upper_char_idemp, IH.
Qed.

Lemma lstrip_idemp (s : string) : lstrip (lstrip s) = lstrip s.
Proof.
  induction s as [|a s IH]; [done|]. cbn [lstrip].
  destruct (is_space a) eqn:Ha; [done|]. cbn [lstrip]. by rewrite Ha.
Qed.

Lemma rstrip_idemp (s : string) : rstrip (rstrip s) = rstrip s.
Proof.
  induction s as [|a s IH]; [done|]. cbn [rstrip].
  destruct (rstrip s) as [|b r] eqn:Hr.
  - destruct (is_space a) eqn:Ha; [done|]. cbn [rstrip]. by rewrite Ha.
  - cbn [rstrip]. cbn [rstrip] in IH. by rewrite IH.
Qed.

Lemma rstrip_lstrip (s : string) : rstrip (lstrip s) = lstrip (rstrip s).
Proof.
  induction s as [|a s IH]; [done|]. cbn [lstrip rstrip].
  destruct (is_space a) eqn:Ha.
  - rewrite IH. destruct (rstrip s) as [|b r]; [done|]. cbn [lstrip]. by rewrite Ha.
  - cbn [rstrip]. destruct (rstrip s) as [|b r]; rewrite ?Ha; cbn [lstrip]; by rewrite Ha.
Qed.

Lemma strip_idemp (s : string) : strip (strip s) = strip s.
Proof.
  unfold strip. by rewrite rstrip_lstrip, rstrip_idemp, lstrip_idemp.
Qed.

Lemma lstrip_upper (s : string) : lstrip (upper s) = upper (lstrip s).
Proof.
  unfold upper. induction s as [|a s IH]; [done|]. cbn [map_chars lstrip].
  rewrite is_space_upper_char. by destruct (is_space a).
Qed.

Lemma rstrip_upper (s : string) : rstrip (upper s) = upper (rstrip s).
Proof.
  unfold upper. induction s as [|a s IH]; [done|]. cbn [map_chars rstrip].
  rewrite IH, is_space_upper_char.
  destruct (rstrip s) as [|b r]; [by destruct (is_space a)|done].
Qed.

Lemma strip_upper (s : string) : strip (upper s) = upper (strip s).
Proof. unfold strip. by rewrite rstrip_upper, lstrip_upper. Qed.

(** Text that was trimmed and upper-cased stays as it is when this is
    done again. *)
Lemma upper_strip_idemp (s : string) :
  upper (strip (upper (strip s))) = upper (strip s).
Proof. by rewrite strip_upper, strip_idemp, upper_idemp. Qed.

End StripUpper.

(** What one turn of [clean_key] makes of a cell. *)
Lemma clean_key_cells (cells : list value) :
  replace "NONE" VNA (replace "NAN" VNA
    (str_method PyStr.upper (str_method PyStr.strip (astype_str <$> cells))))
  = clean_key_cell <$> cells.
Proof.
  unfold replace, str_method. rewrite <- !list_fmap_compose.
  apply list_fmap_ext. intros _ v _. unfold clean_key_cell. cbn.
  repeat case_bool_decide; unfold PyStr.strip in *; congruence.
Qed.

Lemma clean_key_cell_cases (v : value) :
  clean_key_cell v = VNA ∨
  ∃ u, clean_key_cell v = VStr (PyStr.upper (PyStr.strip u)) ∧
       PyStr.upper (PyStr.strip u) ≠ "NAN" ∧ PyStr.upper (PyStr.strip u) ≠ "NONE".
Proof.
  unfold clean_key_cell. repeat case_bool_decide; eauto.
Qed.

Lemma clean_key_cell_idemp (v : value) :
  clean_key_cell v ≠ VNA → clean_key_cell (clean_key_cell v) = clean_key_cell v.
Proof.
  destruct (clean_key_cell_cases v) as [->|(u & -> & Hnan & Hnone)]; [done|].
  intros _. unfold clean_key_cell. cbn [astype_str].
  rewrite upper_strip_idemp. by rewrite !bool_decide_eq_false_2.
Qed.

Lemma getitem_setitem (df : DataFrame) (col : string) (old new : list value) :
  getitem df col = Ok (OneSeries old) →
  getitem (setitem df col new) col = Ok (OneSeries new).
Proof.
  unfold getitem, setitem. cbn [columns].
  induction (columns df) as [|c cols IH]; [done|].
  rewrite fmap_cons, !filter_cons. case_bool_decide as Hc; cbn [fst].
  - rewrite !decide_True by done.
    destruct (filter _ cols) as [|c' rest] eqn:Hrest; [|by destruct rest].
    intros _. assert (filter (λ c0, c0.1 = col)
      ((λ c0, if bool_decide (c0.1 = col) then (c0.1, new) else c0) <$> cols) = []) as ->;
      [|done].
    apply filter_none, Forall_fmap, Forall_forall. intros c1 Hin. cbn.
    case_bool_decide as Hc1; [|done]. exfalso.
    assert (c1 ∈ filter (λ c, c.1 = col) cols) as Hf by (by apply list_elem_of_filter).
    rewrite Hrest in Hf. by apply elem_of_nil in Hf.
  - rewrite !decide_False by done. exact IH.
Qed.

Lemma setitem_setitem (df : DataFrame) (col : string) (a b : list value) :
  setitem (setitem df col a) col b = setitem df col b.
Proof.
  unfold setitem. cbn [index columns]. f_equal.
  rewrite <- list_fmap_compose. apply list_fmap_ext. intros _ c _.
  unfold compose. destruct (bool_decide (c.1 = col)) eqn:Hc; cbn [fst]; by rewrite Hc.
Qed.

Lemma column_names_setitem (df : DataFrame) (col : string) (cells : list value) :
  column_names (setitem df col cells) = column_names df.
Proof.
  unfold column_names, setitem. cbn [columns]. rewrite <- list_fmap_compose.
  apply list_fmap_ext. intros _ c _. cbn. by case_bool_decide.
Qed.

(** One turn of the loop, when it succeeds: the column is normalised cell
    by cell and written back. *)
Lemma clean_key_column_ok (df out : DataFrame) (col : string) :
  clean_key_column df col = Ok out →
  ∃ cells, getitem df col = Ok (OneSeries cells) ∧
           out = setitem df col (clean_key_cell <$> cells).
Proof.
  unfold clean_key_column. case_bool_decide; [done|].
  destruct (getitem df col) as [[cells|cols]|e] eqn:Hget; cbn [rbind]; [|done..].
  rewrite str_accessor_astype_str. cbn [rbind].
  erewrite getitem_setitem by exact Hget. cbn [rbind].
  rewrite setitem_setitem, clean_key_cells. intros [= <-]. by exists cells.
Qed.

(** Where the first pass leaves no missing marker in the column, a second
    pass changes nothing. *)
Lemma clean_key_idempotent_without_missing (col : string) (df once : DataFrame) :
  clean_key (OneColumn col) df = Ok once →
  (∀ cells, getitem once col = Ok (OneSeries cells) → VNA ∉ cells) →
  clean_key (OneColumn col) once = Ok once.
Proof.
  unfold clean_key. cbn [clean_key_loop]. intros Hfirst Hna.
  destruct (clean_key_column df col) as [d1|e] eqn:H1; [|done].
  cbn [rbind] in Hfirst. injection Hfirst as ->.
  destruct (clean_key_column_ok df once col H1) as (cells & Hget & ->).
  pose proof (getitem_setitem df col cells (clean_key_cell <$> cells) Hget) as Hget1.
  specialize (Hna _ Hget1).
  unfold clean_key_column at 1. rewrite column_names_setitem.
  case_bool_decide as Hin.
  { exfalso. unfold getitem in Hget. revert Hget.
    rewrite filter_other_names by exact Hin. done. }
  rewrite Hget1. cbn [rbind]. rewrite str_accessor_astype_str. cbn [rbind].
  erewrite getitem_setitem by exact Hget1. cbn [rbind].
  rewrite !setitem_setitem, clean_key_cells. do 2 f_equal.
  rewrite <- list_fmap_compose. apply list_fmap_ext. intros i v Hv. cbn.
  apply clean_key_cell_idemp. intros Heq. apply Hna.
  rewrite <- Heq. apply list_elem_of_fmap. exists v. split; [done|].
  by eapply list_elem_of_lookup_2.
Qed.

(** C2: a second pass of [clean_key] does not leave the table of the
    first pass alone.  The first pass turns the missing cell and the text
    "nan" into the marker [pd.NA]; the second pass formats that marker as
    the text "<NA>", which is neither "NAN" nor "NONE" and stays. *)
Theorem clean_key_second_pass_differs :
  let once := {| index := [0; 1; 2; 3];
                 columns := [("X", [VStr "AB"; VNA; VNA; VStr "7"])] |} in
  let twice := {| index := [0; 1; 2; 3];
                  columns := [("X", [VStr "AB"; VStr "<NA>"; VStr "<NA>"; VStr "7"])] |} in
  clean_key (ColumnList ["X"]) df_chaves = Ok once ∧
  clean_key (ColumnList ["X"]) once = Ok twice ∧
  once ≠ twice.
Proof.
  intros once twice. split_all; [reflexivity|reflexivity|discriminate].
Qed.

(** ** Unique values of a column *)

Lemma duplicated_keep_first (seen : list string) (cols : list (string * list value)) :
  select (negb <$> duplicated seen cols.*1) cols
  = filter (λ c, c.1 ∉ seen) (spec_keep_first cols).
Proof.
  revert seen. induction cols as [|c cols IH]; intros seen; [done|].
  cbn [fmap list_fmap duplicated spec_keep_first select].
  assert (filter (λ c', c'.1 ∉ seen) (filter (λ c', c'.1 ≠ c.1) (spec_keep_first cols))
          = filter (λ c', c'.1 ∉ c.1 :: seen) (spec_keep_first cols)) as Hff.
  { rewrite list_filter_filter. apply list_filter_iff. intros c'.
    rewrite not_elem_of_cons. tauto. }
  case_bool_decide as Hseen; cbn [negb].
  - rewrite filter_cons_False by tauto. rewrite Hff. apply IH.
  - rewrite filter_cons_True by done. rewrite Hff. f_equal. apply IH.
Qed.

Lemma unique_first_seen (seen l : list string) :
  unique seen l = filter (λ x, x ∉ seen) (spec_first_seen l).
Proof.
  revert seen. induction l as [|x l IH]; intros seen; [done|].
  cbn [unique spec_first_seen].
  assert (filter (λ y, y ∉ seen) (filter (λ y, y ≠ x) (spec_first_seen l))
          = filter (λ y, y ∉ x :: seen) (spec_first_seen l)) as Hff.
  { rewrite list_filter_filter. apply list_filter_iff. intros y.
    rewrite not_elem_of_cons. tauto. }
  case_bool_decide as Hseen.
  - rewrite filter_cons_False by tauto. rewrite Hff, IH.
    apply list_filter_iff. intros y. rewrite not_elem_of_cons.
    split; [|tauto]. intros Hy. split; [|done]. by intros ->.
  - rewrite filter_cons_True by done. rewrite Hff. f_equal. apply IH.
Qed.

Lemma trimmed_text_of_cells (cells : list value) :
  Forall (λ v, isna v = false) cells →
  omap (λ v, match v with VStr s => Some s | _ => None end)
       (str_method PyStr.strip (astype_str <$> cells))
  = spec_trimmed_text <$> cells.
Proof.
  unfold str_method. induction 1 as [|v cells Hv _ IH]; [done|].
  rewrite !fmap_cons. cbn [omap list_omap]. rewrite IH. by destruct v.
Qed.

(** On a table where the trimmed names of the columns kept do not collide
    on the column asked for, [extract_column] does what the specification
    says, step by step. *)
Lemma extract_column_follows_spec (column mode : string) (args : list string)
    (df : DataFrame) :
  (length (filter (λ c, c.1 = column)
             ((λ c, (PyStr.strip c.1, c.2)) <$> spec_keep_first (columns df))) ≤ 1)%nat →
  extract_column column mode args df = spec_extract_unique_values column mode args df.
Proof.
  intros Hone. unfold extract_column, spec_extract_unique_values.
  unfold column_names. cbn [index columns].
  rewrite duplicated_keep_first.
  rewrite filter_all by (apply Forall_true; intros c; apply not_elem_of_nil).
  set (cols := _ <$> spec_keep_first (columns df)) in *.
  unfold getitem. cbn [columns].
  destruct (filter (λ c, c.1 = column) cols) as [|c [|c' rest]] eqn:Hsel.
  - rewrite bool_decide_eq_true_2; [done|].
    intros (c & Hc & Hin)%list_elem_of_fmap.
    assert (c ∈ filter (λ c, c.1 = column) cols) as Hf by (by apply list_elem_of_filter).
    rewrite Hsel in Hf. by apply elem_of_nil in Hf.
  - rewrite bool_decide_eq_false_2.
    2:{ intros Hnot. apply Hnot. apply list_elem_of_fmap. exists c.
        assert (c ∈ filter (λ c, c.1 = column) cols) as Hf by (rewrite Hsel; left).
        apply list_elem_of_filter in Hf as [-> Hf]. done. }
    cbn [rbind]. rewrite str_accessor_astype_str. cbn [rbind].
    rewrite trimmed_text_of_cells, unique_first_seen.
    + rewrite (filter_all (λ x : string, x ∉ []))
        by (apply Forall_true; intros x; apply not_elem_of_nil).
      done.
    + apply Forall_forall. by intros v [Hv _]%list_elem_of_filter.
  - simpl in Hone. lia.
Qed.

(** C5: when two column names differ only by surrounding blanks they
    survive the removal of duplicates, which runs before the names are
    trimmed, and collide after it; the column asked for is then a
    DataFrame, and the extraction raises [AttributeError] instead of
    returning the unique values. *)
Theorem extract_column_names_collide_after_trim :
  extract_column "KAM" "not-in" ["A CLASSIFICAR"] df_nomes_com_espaco
    = Err AttributeError ∧
  extract_column "KAM" "in" ["Ana"] df_nomes_com_espaco = Err AttributeError.
Proof.
  split; reflexivity.
Qed.

(** ** Tables as objects: no transform writes into its input *)

Section StoreFacts.
Implicit Types (h : gmap nat DataFrame) (df : nat) (d : DataFrame).

Lemma fresh_unused h : h !! fresh (dom h) = None.
Proof. apply not_elem_of_dom, is_fresh. Qed.

Lemma alloc_extends h d : h ⊆ <[fresh (dom h) := d]> h.
Proof. apply insert_subseteq, fresh_unused. Qed.

(** Running a value-level step and storing its result in a new object. *)
Lemma load_lift_alloc (f : DataFrame → result DataFrame) h df d :
  h !! df = Some d →
  let out := Store.bind (Store.load df) (λ d, Store.bind (Store.lift (f d)) Store.alloc) h in
  Store.agrees (f d) out ∧ h ⊆ out.2 ∧ ∀ l, out.1 = Ok l → h !! l = None.
Proof.
  intros Hdf. unfold Store.bind, Store.load, Store.lift, Store.alloc. rewrite Hdf.
  destruct (f d) as [d'|e]; cbn.
  - split_all; [by rewrite lookup_insert_eq|apply alloc_extends|].
    intros l [= <-]. apply fresh_unused.
  - done.
Qed.

Lemma remove_lines_on_objects args mode h df d :
  h !! df = Some d →
  let out := Store.remove_lines args mode df h in
  Store.agrees (remove_lines args mode d) out ∧ h ⊆ out.2 ∧ ∀ l, out.1 = Ok l → h !! l = None.
Proof.
  intros Hdf. unfold Store.remove_lines, remove_lines, Store.drop.
  destruct (bool_decide (mode = "interval")), args as [|a [|b [|c args]]];
    by apply (load_lift_alloc (drop_rows _)).
Qed.

Lemma rename_columns_on_objects args h df d :
  h !! df = Some d →
  let out := Store.rename_columns args df h in
  Store.agrees (rename_columns args d) out ∧ h ⊆ out.2 ∧ ∀ l, out.1 = Ok l → h !! l = None.
Proof.
  intros Hdf. by apply (load_lift_alloc (set_axis args)).
Qed.

(** Stepping through a computation. *)
Lemma bind_load {A} (k : DataFrame → Store.st A) h df d :
  h !! df = Some d → Store.bind (Store.load df) k h = k d h.
Proof. intros Hdf. unfold Store.bind, Store.load. by rewrite Hdf. Qed.

Lemma bind_get_columns {A} (k : list string → Store.st A) h df d :
  h !! df = Some d → Store.bind (Store.get_columns df) k h = k (column_names d) h.
Proof.
  intros Hdf. unfold Store.get_columns, Store.bind, Store.load, Store.ret.
  by rewrite Hdf.
Qed.

Lemma bind_assoc {A B C} (m : Store.st A) (f : A → Store.st B) (k : B → Store.st C) h :
  Store.bind (Store.bind m f) k h = Store.bind m (λ a, Store.bind (f a) k) h.
Proof. unfold Store.bind. by destruct (m h) as [[a|e] h']. Qed.

Lemma bind_lift_ok {A B} (k : A → Store.st B) h (a : A) :
  Store.bind (Store.lift (Ok a)) k h = k a h.
Proof. done. Qed.

Lemma bind_lift_err {A B} (k : A → Store.st B) h (e : exn) :
  Store.bind (Store.lift (Err e)) k h = (Err e, h).
Proof. done. Qed.

Lemma bind_alloc {A} (k : nat → Store.st A) h d :
  Store.bind (Store.alloc d) k h = k (fresh (dom h)) (<[fresh (dom h) := d]> h).
Proof. done. Qed.

Lemma bind_write {A} (k : unit → Store.st A) h df d :
  Store.bind (Store.write df d) k h = k () (<[df := d]> h).
Proof. done. Qed.

Lemma remove_columns_on_objects args mode h df d :
  h !! df = Some d →
  let out := Store.remove_columns args mode df h in
  Store.agrees (remove_columns args mode d) out ∧ h ⊆ out.2 ∧
  ∀ l, out.1 = Ok l → h !! l = None.
Proof.
  intros Hdf. unfold Store.remove_columns, remove_columns, Store.drop_axis1.
  destruct (bool_decide (mode = "interval")), args as [|a [|b [|c args]]];
    rewrite (bind_get_columns _ h df d Hdf);
    try (by apply (load_lift_alloc (drop_columns _)));
    (destruct (py_items (column_names d) _) as [names|e];
     [ rewrite bind_lift_ok; by apply (load_lift_alloc (drop_columns _))
     | by rewrite bind_lift_err ]).
Qed.

Lemma filter_columns_on_objects column args h df d :
  h !! df = Some d →
  let out := Store.filter_columns column args df h in
  Store.agrees (filter_columns column args d) out ∧ h ⊆ out.2 ∧
  ∀ l, out.1 = Ok l → h !! l = None.
Proof.
  intros Hdf. unfold Store.filter_columns, filter_columns, Store.copy.
  rewrite (bind_load _ h df d Hdf).
  destruct (getitem d column) as [sel|e]; [|by rewrite bind_lift_err].
  rewrite bind_lift_ok. cbn [rbind].
  destruct (str_accessor sel) as [cells|e]; [|by rewrite bind_lift_err].
  rewrite bind_lift_ok, bind_alloc. cbn [rbind].
  set (h1 := <[fresh (dom h) := _]> h).
  rewrite (bind_load _ h1 (fresh (dom h)) _ (lookup_insert_eq _ _ _)).
  assert (h ⊆ h1) as Hh1 by apply alloc_extends.
  unfold Store.alloc. cbn [Store.agrees fst snd]. split_all.
  - by rewrite lookup_insert_eq.
  - etrans; [exact Hh1|apply alloc_extends].
  - intros l [= <-]. eapply lookup_weaken_None; [apply fresh_unused|exact Hh1].
Qed.

Lemma extract_column_on_objects column mode args h df d :
  h !! df = Some d →
  let out := Store.extract_column column mode args df h in
  out.1 = extract_column column mode args d ∧ h ⊆ out.2.
Proof.
  intros Hdf. unfold Store.extract_column, extract_column, Store.copy.
  rewrite (bind_load _ h df d Hdf), bind_alloc, bind_assoc.
  erewrite bind_load by apply lookup_insert_eq. rewrite bind_alloc.
  erewrite bind_load by apply lookup_insert_eq. rewrite bind_write.
  rewrite insert_insert_eq.
  erewrite bind_get_columns by apply lookup_insert_eq.
  match goal with
  | |- context [Store.load ?l] => set (df' := l)
  end.
  match goal with
  | |- context [<[df' := ?r]> ?h1] => set (renamed := r); set (h3 := <[df' := r]> h1)
  end.
  assert (h ⊆ h3) as Hh3.
  { etrans; [apply alloc_extends|]. apply insert_subseteq, fresh_unused. }
  case_bool_decide; [done|].
  erewrite bind_load by apply lookup_insert_eq.
  destruct (getitem renamed column) as [sel|e]; [|by rewrite bind_lift_err].
  rewrite bind_lift_ok. cbn [rbind].
  destruct (str_accessor _) as [cells|e]; [|by rewrite bind_lift_err].
  rewrite bind_lift_ok. cbn [rbind].
  repeat case_bool_decide; done.
Qed.

(** One turn of the loop of [clean_key] writes into the object it is given
    and nowhere else, and computes what the value-level turn computes. *)
Lemma clean_key_column_on_objects h l d col :
  h !! l = Some d →
  match clean_key_column d col with
  | Ok d' => Store.clean_key_column l col h = (Ok (), <[l := d']> h)
  | Err e => ∃ d', Store.clean_key_column l col h = (Err e, <[l := d']> h)
  end.
Proof.
  intros Hl. unfold clean_key_column, Store.clean_key_column.
  rewrite (bind_get_columns _ h l d Hl).
  case_bool_decide.
  { exists d. by rewrite insert_id. }
  rewrite (bind_load _ h l d Hl).
  destruct (getitem d col) as [sel|e]; cbn [rbind].
  2:{ exists d. by rewrite bind_lift_err, insert_id. }
  rewrite bind_lift_ok.
  destruct (str_accessor _) as [cells|e]; cbn [rbind].
  2:{ exists d. by rewrite bind_lift_err, insert_id. }
  rewrite bind_lift_ok, bind_write.
  erewrite bind_load by apply lookup_insert_eq.
  destruct (getitem (setitem d col _) col) as [[cells'|cols]|e]; cbn [rbind].
  - rewrite bind_lift_ok. unfold Store.write. by rewrite insert_insert_eq.
  - rewrite bind_lift_ok. eexists. reflexivity.
  - rewrite bind_lift_err. eexists. reflexivity.
Qed.

Lemma clean_key_loop_on_objects column_list h l d :
  h !! l = Some d →
  match clean_key_loop column_list d with
  | Ok d' => Store.clean_key_loop column_list l h = (Ok (), <[l := d']> h)
  | Err e => ∃ d', Store.clean_key_loop column_list l h = (Err e, <[l := d']> h)
  end.
Proof.
  revert h d. induction column_list as [|col rest IH]; intros h d Hl.
  { cbn. by rewrite insert_id. }
  cbn [clean_key_loop Store.clean_key_loop]. unfold Store.bind.
  pose proof (clean_key_column_on_objects h l d col Hl) as Hstep.
  destruct (clean_key_column d col) as [d1|e]; cbn [rbind].
  - rewrite Hstep.
    pose proof (IH (<[l := d1]> h) d1 (lookup_insert_eq _ _ _)) as Hrest.
    destruct (clean_key_loop rest d1) as [d'|e].
    + by rewrite Hrest, insert_insert_eq.
    + destruct Hrest as [d' ->]. exists d'. by rewrite insert_insert_eq.
  - destruct Hstep as [d' ->]. by exists d'.
Qed.

Lemma clean_key_on_objects col h df d :
  h !! df = Some d →
  let out := Store.clean_key col df h in
  Store.agrees (clean_key col d) out ∧ h ⊆ out.2 ∧
  ∀ l, out.1 = Ok l → h !! l = None.
Proof.
  intros Hdf. unfold Store.clean_key, clean_key, Store.copy.
  rewrite bind_assoc, (bind_load _ h df d Hdf), bind_alloc.
  set (column_list := match col with OneColumn c => [c] | ColumnList l => l end).
  set (l := fresh (dom h)).
  pose proof (clean_key_loop_on_objects column_list (<[l := d]> h) l d
                (lookup_insert_eq _ _ _)) as Hloop.
  assert (∀ d', h ⊆ <[l := d']> (<[l := d]> h)) as Hext.
  { intros d'. rewrite insert_insert_eq. apply insert_subseteq, fresh_unused. }
  unfold Store.bind.
  destruct (clean_key_loop column_list d) as [d'|e].
  - rewrite Hloop. cbn. split_all.
    + apply lookup_insert_eq.
    + apply Hext.
    + intros ? [= <-]. apply fresh_unused.
  - destruct Hloop as [d' ->]. cbn. split_all; [done|apply Hext|done].
Qed.

End StoreFacts.

(** C7: no transform writes into the table it is applied to.  Whatever
    the arguments, and whether the transform returns or raises, the input
    object holds the same table afterwards, so does every other table of
    the store, and a table that is returned is a new object. *)
Theorem transforms_leave_input_unchanged (h : gmap nat DataFrame) (df : nat)
    (d : DataFrame) :
  h !! df = Some d →
  (∀ args mode,
     let m := Store.remove_lines args mode df in
     (m h).2 !! df = Some d ∧ Store.leaves_intact h m ∧ Store.returns_new h m) ∧
  (∀ args mode,
     let m := Store.remove_columns args mode df in
     (m h).2 !! df = Some d ∧ Store.leaves_intact h m ∧ Store.returns_new h m) ∧
  (∀ names,
     let m := Store.rename_columns names df in
     (m h).2 !! df = Some d ∧ Store.leaves_intact h m ∧ Store.returns_new h m) ∧
  (∀ column args,
     let m := Store.filter_columns column args df in
     (m h).2 !! df = Some d ∧ Store.leaves_intact h m ∧ Store.returns_new h m) ∧
  (∀ column mode args,
     let m := Store.extract_column column mode args df in
     (m h).2 !! df = Some d ∧ Store.leaves_intact h m) ∧
  (∀ col,
     let m := Store.clean_key col df in
     (m h).2 !! df = Some d ∧ Store.leaves_intact h m ∧ Store.returns_new h m).
Proof.
  intros Hdf. split_all; intros; cbv zeta; unfold Store.leaves_intact, Store.returns_new.
  - destruct (remove_lines_on_objects args mode h df d Hdf) as (_ & Hsub & Hnew).
    split_all; [by eapply lookup_weaken|done|done].
  - destruct (remove_columns_on_objects args mode h df d Hdf) as (_ & Hsub & Hnew).
    split_all; [by eapply lookup_weaken|done|done].
  - destruct (rename_columns_on_objects names h df d Hdf) as (_ & Hsub & Hnew).
    split_all; [by eapply lookup_weaken|done|done].
  - destruct (filter_columns_on_objects column args h df d Hdf) as (_ & Hsub & Hnew).
    split_all; [by eapply lookup_weaken|done|done].
  - destruct (extract_column_on_objects column mode args h df d Hdf) as (_ & Hsub).
    split_all; [by eapply lookup_weaken|done].
  - destruct (clean_key_on_objects col h df d Hdf) as (_ & Hsub & Hnew).
    split_all; [by eapply lookup_weaken|done|done].
Qed.

Lemma transforms_leave_input_unchanged_examples :
  let h : gmap nat DataFrame := {[ 0%nat := df_exemplo ]} in
  (Store.clean_key (OneColumn "B") 0%nat h).2 !! 0%nat = Some df_exemplo ∧
  (Store.clean_key (ColumnList ["B"; "Z"]) 0%nat h).2 !! 0%nat = Some df_exemplo ∧
  (Store.filter_columns "A" (Variadic ["1"]) 0%nat h).2 !! 0%nat = Some df_exemplo ∧
  (Store.extract_column "B" "in" ["Outro"] 0%nat h).2 !! 0%nat = Some df_exemplo ∧
  (Store.remove_lines [2] "interval" 0%nat h).2 !! 0%nat = Some df_exemplo.
Proof.
  intros h.
  destruct (transforms_leave_input_unchanged h 0%nat df_exemplo)
    as (Hlines & _ & _ & Hfilter & Hextract & Hclean).
  { apply lookup_singleton_eq. }
  split_all.
  - apply (Hclean (OneColumn "B")).
  - apply (Hclean (ColumnList ["B"; "Z"])).
  - apply (Hfilter "A" (Variadic ["1"])).
  - apply (Hextract "B" "in" ["Outro"]).
  - apply (Hlines [2] "interval").
Defined.

(** * Further properties of the code *)

(** ** Shapes *)

Lemma select_all {A} (mask : list bool) (l : list A) :
  Forall (λ b, b = true) mask → length mask = length l → select mask l = l.
Proof.
  intros Hall. revert l. induction Hall as [|b mask -> _ IH]; intros [|x l] Hlen;
    try done. cbn. f_equal. apply IH. by injection Hlen.
Qed.

Lemma length_select {A B} (mask : list bool) (l : list A) (k : list B) :
  length l = length k → length (select mask l) = length (select mask k).
Proof.
  revert l k. induction mask as [|b mask IH]; intros [|x l] [|y k] Hlen; try done.
  injection Hlen as Hlen. destruct b; cbn; by rewrite (IH l k).
Qed.

Lemma wf_select_rows (mask : list bool) (df : DataFrame) :
  wf df → wf (select_rows mask df).
Proof.
  unfold wf, select_rows. cbn [index columns]. intros Hwf.
  apply Forall_fmap. eapply Forall_impl; [exact Hwf|].
  intros c Hc. cbn. by apply length_select.
Qed.

Lemma wf_drop_rows (labels : list Z) (df out : DataFrame) :
  wf df → drop_rows labels df = Ok out → wf out.
Proof.
  unfold drop_rows. intros Hwf. case_bool_decide; [|done].
  intros [= <-]. by apply wf_select_rows.
Qed.

Lemma wf_drop_columns (names : list string) (df out : DataFrame) :
  wf df → drop_columns names df = Ok out → wf out.
Proof.
  unfold drop_columns. intros Hwf. case_bool_decide; [|done].
  intros [= <-]. unfold wf. cbn [index columns].
  apply Forall_forall. intros c [_ Hc]%list_elem_of_filter.
  by eapply (proj1 (Forall_forall _ _) Hwf).
Qed.

Lemma zip_with_names (names : list string) (cols : list (string * list value)) :
  length names = length cols →
  (zip_with (λ n c, (n, c.2)) names cols).*1 = names ∧
  (zip_with (λ n c, (n, c.2)) names cols).*2 = cols.*2.
Proof.
  revert cols. induction names as [|n names IH]; intros [|c cols] Hlen; try done.
  injection Hlen as Hlen. destruct (IH cols Hlen) as [H1 H2].
  cbn. by rewrite H1, H2.
Qed.

Lemma set_axis_ok (names : list string) (df out : DataFrame) :
  set_axis names df = Ok out →
  length names = length (columns df) ∧ index out = index df ∧
  column_names out = names ∧ (columns out).*2 = (columns df).*2.
Proof.
  unfold set_axis. case_bool_decide as Hlen; [|done]. intros [= <-].
  destruct (zip_with_names names (columns df) Hlen) as [H1 H2]. by split_all.
Qed.

Lemma wf_cells (df : DataFrame) :
  wf df ↔ Forall (λ cells, length cells = length (index df)) (columns df).*2.
Proof. unfold wf. by rewrite Forall_fmap. Qed.

Lemma getitem_series_elem (df : DataFrame) (col : string) (cells : list value) :
  getitem df col = Ok (OneSeries cells) → (col, cells) ∈ columns df.
Proof.
  unfold getitem. destruct (filter _ (columns df)) as [|c [|c' rest]] eqn:Hf; [done| |done].
  intros [= <-]. assert (c ∈ filter (λ c, c.1 = col) (columns df)) as Hin.
  { rewrite Hf. left. }
  apply list_elem_of_filter in Hin as [<- Hin]. by destruct c.
Qed.

Lemma wf_setitem (df : DataFrame) (col : string) (cells : list value) :
  wf df → length cells = length (index df) → wf (setitem df col cells).
Proof.
  unfold wf, setitem. cbn [index columns]. intros Hwf Hlen.
  apply Forall_fmap. eapply Forall_impl; [exact Hwf|].
  intros c Hc. cbn. by case_bool_decide.
Qed.

Lemma wf_clean_key_loop (column_list : list string) (df out : DataFrame) :
  wf df → clean_key_loop column_list df = Ok out → wf out.
Proof.
  revert df. induction column_list as [|col rest IH]; intros df Hwf.
  { by intros [= <-]. }
  cbn [clean_key_loop].
  destruct (clean_key_column df col) as [d1|e] eqn:Hstep; [|done]. cbn [rbind].
  apply IH. destruct (clean_key_column_ok df d1 col Hstep) as (cells & Hget & ->).
  apply wf_setitem; [done|]. rewrite length_fmap.
  apply getitem_series_elem in Hget.
  by apply (proj1 (Forall_forall _ _) Hwf) in Hget.
Qed.

(** X1: a table in which every column has one cell per row stays so under
    every transform that returns a table. *)
Theorem transforms_keep_tables_rectangular (df out : DataFrame) :
  wf df →
  (∀ args mode, remove_lines args mode df = Ok out → wf out) ∧
  (∀ args mode, remove_columns args mode df = Ok out → wf out) ∧
  (∀ names, rename_columns names df = Ok out → wf out) ∧
  (∀ column args, filter_columns column args df = Ok out → wf out) ∧
  (∀ col, clean_key col df = Ok out → wf out).
Proof.
  intros Hwf. split_all.
  - intros args mode. unfold remove_lines.
    destruct (bool_decide _), args as [|a [|b [|c args]]]; by apply wf_drop_rows.
  - intros args mode. unfold remove_columns.
    destruct (bool_decide _), args as [|a [|b [|c args]]];
      try (by apply wf_drop_columns);
      (destruct (py_items _ _) as [names|e]; [by apply wf_drop_columns|done]).
  - intros names Hok. apply set_axis_ok in Hok as (_ & Hidx & _ & Hcells).
    apply wf_cells. rewrite Hcells, Hidx. by apply wf_cells.
  - intros column args. unfold filter_columns.
    destruct (getitem df column) as [sel|e]; [|done]. cbn [rbind].
    destruct (str_accessor sel) as [cells|e]; [|done]. cbn [rbind].
    intros [= <-]. by apply wf_select_rows.
  - intros col. by apply wf_clean_key_loop.
Qed.

Lemma transforms_keep_tables_rectangular_examples :
  (∃ out, remove_lines [2] "interval" df_exemplo = Ok out ∧ wf out) ∧
  (∃ out, remove_columns [0; 2] "individual" df_exemplo = Ok out ∧ wf out) ∧
  (∃ out, rename_columns ["ID"; "Segmento"; "Valor"] df_exemplo = Ok out ∧ wf out) ∧
  (∃ out, filter_columns "B" (Variadic ["Varejo"]) df_exemplo = Ok out ∧ wf out) ∧
  (∃ out, clean_key (OneColumn "B") df_exemplo = Ok out ∧ wf out).
Proof.
  assert (wf df_exemplo) as Hwf by (repeat constructor).
  split_all; eexists; (split; [reflexivity|]).
  - eapply (proj1 (transforms_keep_tables_rectangular df_exemplo _ Hwf)
              [2] "interval"). reflexivity.
  - eapply (proj1 (proj2 (transforms_keep_tables_rectangular df_exemplo _ Hwf))
              [0; 2] "individual"). reflexivity.
  - eapply (proj1 (proj2 (proj2 (transforms_keep_tables_rectangular df_exemplo _ Hwf)))
              ["ID"; "Segmento"; "Valor"]). reflexivity.
  - eapply (proj1 (proj2 (proj2 (proj2
              (transforms_keep_tables_rectangular df_exemplo _ Hwf))))
              "B" (Variadic ["Varejo"])). reflexivity.
  - eapply (proj2 (proj2 (proj2 (proj2
              (transforms_keep_tables_rectangular df_exemplo _ Hwf))))
              (OneColumn "B")). reflexivity.
Defined.

(** ** Renaming columns *)

Lemma zip_with_cells (names : list string) (cols : list (string * list value)) :
  zip_with (λ n c, (n, c.2)) names cols = zip names cols.*2.
Proof.
  revert cols. induction names as [|n names IH]; intros [|c cols]; try done.
  cbn. by rewrite IH.
Qed.

(** X2: given as many names as the table has columns, [rename_columns]
    returns a table with exactly those names, in that order, and with the
    same rows; given any other number of names it raises [ValueError]. *)
Theorem rename_columns_replaces_names (args : list string) (df : DataFrame) :
  (length args = length (columns df) →
     ∃ out, rename_columns args df = Ok out ∧ column_names out = args ∧
            index out = index df ∧ rows out = rows df) ∧
  (length args ≠ length (columns df) → rename_columns args df = Err ValueError).
Proof.
  unfold rename_columns. split; intros Hlen.
  - destruct (set_axis args df) as [out|e] eqn:Hset.
    + apply set_axis_ok in Hset as (_ & Hidx & Hnames & Hcells).
      exists out. split_all; [done..|]. unfold rows. by rewrite Hidx, Hcells.
    + unfold set_axis in Hset. by rewrite bool_decide_eq_true_2 in Hset.
  - unfold set_axis. by rewrite bool_decide_eq_false_2.
Qed.

Lemma rename_columns_replaces_names_examples :
  (∃ out, rename_columns ["ID"; "Segmento"; "Valor"] df_exemplo = Ok out ∧
          column_names out = ["ID"; "Segmento"; "Valor"] ∧
          index out = index df_exemplo ∧ rows out = rows df_exemplo) ∧
  rename_columns ["ID"; "Segmento"] df_exemplo = Err ValueError.
Proof.
  split.
  - apply (proj1 (rename_columns_replaces_names ["ID"; "Segmento"; "Valor"] df_exemplo)).
    reflexivity.
  - apply (proj2 (rename_columns_replaces_names ["ID"; "Segmento"] df_exemplo)).
    simpl. lia.
Defined.

(** X3: renaming twice is renaming once with the later names: the names
    given first leave no trace. *)
Theorem rename_columns_last_wins (first later : list string) (df mid : DataFrame) :
  rename_columns first df = Ok mid →
  rename_columns later mid = rename_columns later df.
Proof.
  unfold rename_columns. intros Hfirst.
  pose proof Hfirst as (Hlen & Hidx & Hnames & Hcells)%set_axis_ok.
  assert (length (columns mid) = length (columns df)) as Hcols.
  { rewrite <- Hlen, <- Hnames. unfold column_names. by rewrite length_fmap. }
  unfold set_axis. rewrite Hcols. case_bool_decide; [|done].
  by rewrite !zip_with_cells, Hcells, Hidx.
Qed.

Lemma rename_columns_last_wins_example :
  ∃ mid, rename_columns ["x"; "y"; "z"] df_exemplo = Ok mid ∧
         rename_columns ["ID"; "Segmento"; "Valor"] mid
         = rename_columns ["ID"; "Segmento"; "Valor"] df_exemplo.
Proof.
  eexists. split; [reflexivity|].
  apply (rename_columns_last_wins ["x"; "y"; "z"]). reflexivity.
Defined.

(** ** Removing columns *)

Lemma py_slice_subseteq {A} (a b : Z) (l : list A) : py_slice a b l ⊆ l.
Proof.
  unfold py_slice. etrans; [apply subseteq_take|apply subseteq_drop].
Qed.

Lemma drop_columns_present (names : list string) (df : DataFrame) :
  names ⊆ column_names df →
  drop_columns names df
  = Ok {| index := index df; columns := filter (λ c, c.1 ∉ names) (columns df) |}.
Proof.
  intros Hsub. unfold drop_columns. rewrite bool_decide_eq_true_2; [done|].
  apply Forall_forall. intros n Hn. by apply Hsub.
Qed.

Lemma py_item_ok {A} (l : list A) (i : Z) :
  - Z.of_nat (length l) ≤ i < Z.of_nat (length l) → ∃ x, py_item l i = Ok x ∧ x ∈ l.
Proof.
  intros Hi. unfold py_item.
  destruct (Z.leb_spec (- Z.of_nat (length l)) i); [|lia].
  destruct (Z.ltb_spec i (Z.of_nat (length l))); [|lia]. cbn [andb].
  destruct (l !! _) as [x|] eqn:Hx.
  - exists x. split; [done|]. by eapply list_elem_of_lookup_2.
  - apply lookup_ge_None in Hx. destruct (Z.ltb_spec i 0); lia.
Qed.

Lemma py_item_out_of_bounds {A} (l : list A) (i : Z) :
  ¬ (- Z.of_nat (length l) ≤ i < Z.of_nat (length l)) → py_item l i = Err IndexError.
Proof.
  intros Hi. unfold py_item.
  destruct (Z.leb_spec (- Z.of_nat (length l)) i),
           (Z.ltb_spec i (Z.of_nat (length l))); cbn [andb]; try done. lia.
Qed.

Lemma py_items_ok {A} (l : list A) (idxs : list Z) :
  Forall (λ i, - Z.of_nat (length l) ≤ i < Z.of_nat (length l)) idxs →
  ∃ xs, py_items l idxs = Ok xs ∧ xs ⊆ l.
Proof.
  induction 1 as [|i idxs Hi _ (xs & Hxs & Hsub)].
  { exists []. split; [done|]. apply list_subseteq_nil. }
  destruct (py_item_ok l i Hi) as (x & Hx & Hin).
  exists (x :: xs). cbn [py_items]. rewrite Hx, Hxs. split; [done|].
  intros y [->|Hy]%elem_of_cons; auto.
Qed.

Lemma py_items_out_of_bounds {A} (l : list A) (idxs : list Z) :
  ¬ Forall (λ i, - Z.of_nat (length l) ≤ i < Z.of_nat (length l)) idxs →
  py_items l idxs = Err IndexError.
Proof.
  induction idxs as [|i idxs IH]; intros Hnot.
  { exfalso. apply Hnot. constructor. }
  cbn [py_items].
  destruct (decide (- Z.of_nat (length l) ≤ i < Z.of_nat (length l))) as [Hi|Hi].
  - destruct (py_item_ok l i Hi) as (x & -> & _). cbn [rbind].
    rewrite IH; [done|]. intros Hall. apply Hnot. by constructor.
  - by rewrite py_item_out_of_bounds.
Qed.

(** X4: in interval mode with one or two indices [remove_columns] never
    raises, whatever the integers: the slice is clipped to the table.  The
    rows keep their labels and the columns left are columns of the input,
    in their order. *)
Theorem remove_columns_interval_never_raises (a b : Z) (df : DataFrame) :
  (∃ out, remove_columns [a] "interval" df = Ok out ∧ index out = index df ∧
          columns out `sublist_of` columns df) ∧
  (∃ out, remove_columns [a; b] "interval" df = Ok out ∧ index out = index df ∧
          columns out `sublist_of` columns df).
Proof.
  unfold remove_columns. cbn.
  split; rewrite drop_columns_present by apply py_slice_subseteq;
    (eexists; split_all; [done|done|apply sublist_filter]).
Qed.

(** X5: in individual mode [remove_columns] accepts the positions from
    minus the number of columns up to, but not including, that number, and
    raises [IndexError] as soon as one listed position is outside. *)
Theorem remove_columns_individual_bounds (args : list Z) (df : DataFrame) :
  let n := Z.of_nat (length (columns df)) in
  (Forall (λ i, - n ≤ i < n) args →
     ∃ out, remove_columns args "individual" df = Ok out ∧ index out = index df ∧
            columns out `sublist_of` columns df) ∧
  (¬ Forall (λ i, - n ≤ i < n) args →
     remove_columns args "individual" df = Err IndexError).
Proof.
  intros n.
  assert (Z.of_nat (length (column_names df)) = n) as Hn.
  { unfold column_names. by rewrite length_fmap. }
  assert (remove_columns args "individual" df
          = rbind (py_items (column_names df) args) (λ names, drop_columns names df))
    as -> by (unfold remove_columns; by destruct args as [|? [|? []]]).
  split; intros Hargs.
  - destruct (py_items_ok (column_names df) args) as (names & -> & Hsub).
    { by rewrite Hn. }
    cbn [rbind]. rewrite drop_columns_present by done.
    eexists. split_all; [done|done|apply sublist_filter].
  - rewrite py_items_out_of_bounds; [done|]. by rewrite Hn.
Qed.

Lemma remove_columns_individual_bounds_examples :
  (∃ out, remove_columns [-1; 0] "individual" df_exemplo = Ok out ∧
          index out = index df_exemplo ∧
          columns out `sublist_of` columns df_exemplo) ∧
  remove_columns [0; 3] "individual" df_exemplo = Err IndexError.
Proof.
  split.
  - apply (proj1 (remove_columns_individual_bounds [-1; 0] df_exemplo)).
    repeat constructor; simpl; lia.
  - apply (proj2 (remove_columns_individual_bounds [0; 3] df_exemplo)).
    intros Hall. apply Forall_cons in Hall as [_ Hall].
    apply Forall_cons in Hall as [Hthree _]. simpl in Hthree. lia.
Defined.

(** Dropping the names found at positions [lo..hi) of a table whose names
    are all different leaves the columns before [lo] and from [hi] on. *)
Lemma filter_slice_distinct (lo hi : nat) (cols : list (string * list value)) :
  NoDup cols.*1 → (lo ≤ hi)%nat →
  filter (λ c, c.1 ∉ take (hi - lo) (drop lo cols.*1)) cols
  = take lo cols ++ drop hi cols.
Proof.
  intros Hnd Hle.
  rewrite <- fmap_drop, <- fmap_take.
  set (A := take lo cols). set (M := take (hi - lo) (drop lo cols)).
  set (C := drop hi cols).
  assert (cols = A ++ M ++ C) as Hsplit.
  { subst A M C. rewrite <- (take_drop lo cols) at 1. f_equal.
    rewrite <- (take_drop (hi - lo) (drop lo cols)) at 1. f_equal.
    rewrite drop_drop. f_equal. lia. }
  rewrite Hsplit in Hnd. rewrite !fmap_app in Hnd.
  apply NoDup_app in Hnd as (_ & HAM & Hnd).
  apply NoDup_app in Hnd as (_ & HMC & _).
  rewrite Hsplit at 1. rewrite !filter_app.
  rewrite (filter_all _ A), (filter_none _ M), (filter_all _ C); [done| | |].
  - apply Forall_forall. intros c Hc Hin. eapply HMC; [exact Hin|].
    by apply list_elem_of_fmap_2.
  - apply Forall_forall. intros c Hc Hnot. apply Hnot. by apply list_elem_of_fmap_2.
  - apply Forall_forall. intros c Hc Hin.
    eapply HAM; [by apply list_elem_of_fmap_2|]. apply elem_of_app. by left.
Qed.

Lemma py_slice_in_range {A} (a b : Z) (l : list A) :
  0 ≤ a ≤ b → b ≤ Z.of_nat (length l) →
  py_slice a b l = take (Z.to_nat b - Z.to_nat a) (drop (Z.to_nat a) l).
Proof.
  intros Hab Hb. unfold py_slice.
  destruct (Z.ltb_spec a 0), (Z.ltb_spec b 0); try lia.
  rewrite !Z.min_l by lia. f_equal. lia.
Qed.

Lemma py_slice_from_end {A} (k : Z) (l : list A) :
  0 < k ≤ Z.of_nat (length l) →
  py_slice 0 (- k) l = take (length l - Z.to_nat k - 0) (drop 0 l).
Proof.
  intros Hk. unfold py_slice.
  destruct (Z.ltb_spec (- k) 0); [|lia]. change (0 <? 0) with false. cbv iota.
  rewrite Z.min_l, Z.max_l by lia. change (Z.to_nat 0) with 0%nat. f_equal. lia.
Qed.

(** X6: on a table whose column names are all different, interval mode
    removes the columns at positions a up to b-1 (from 0 up to n-1 with one
    index) and keeps the others in place. *)
Theorem remove_columns_interval_positions (a b : Z) (df : DataFrame) :
  NoDup (column_names df) →
  0 ≤ a ≤ b → b ≤ Z.of_nat (length (columns df)) →
  remove_columns [a; b] "interval" df
  = Ok {| index := index df;
          columns := take (Z.to_nat a) (columns df) ++ drop (Z.to_nat b) (columns df) |} ∧
  remove_columns [b] "interval" df
  = Ok {| index := index df; columns := drop (Z.to_nat b) (columns df) |}.
Proof.
  intros Hnd Hab Hb.
  assert (Z.of_nat (length (column_names df)) = Z.of_nat (length (columns df))) as Hn.
  { unfold column_names. by rewrite length_fmap. }
  unfold remove_columns.
  change (bool_decide ("interval" = "interval")) with true. cbv iota.
  rewrite !drop_columns_present by apply py_slice_subseteq.
  rewrite (py_slice_in_range a b), (py_slice_in_range 0 b) by lia.
  change (Z.to_nat 0) with 0%nat.
  unfold column_names. rewrite !filter_slice_distinct by (done || lia).
  done.
Qed.

Lemma remove_columns_interval_positions_example :
  remove_columns [1; 3] "interval" df_exemplo
  = Ok {| index := [0; 1; 2; 3; 4];
          columns := [("A", [VInt 1; VInt 2; VInt 3; VInt 4; VInt 5])] |} ∧
  remove_columns [3] "interval" df_exemplo
  = Ok {| index := [0; 1; 2; 3; 4]; columns := [] |}.
Proof.
  assert (NoDup (column_names df_exemplo)) as Hnd.
  { apply (bool_decide_unpack _). vm_compute. exact I. }
  split.
  - apply (proj1 (remove_columns_interval_positions 1 3 df_exemplo Hnd
                    ltac:(lia) ltac:(simpl; lia))).
  - apply (proj2 (remove_columns_interval_positions 3 3 df_exemplo Hnd
                    ltac:(lia) ltac:(simpl; lia))).
Defined.

(** X7: a negative single index in interval mode counts from the end, as
    Python slices do: with -k, all columns go except the last k.  (On rows
    a negative index removes nothing, see below.) *)
Theorem remove_columns_interval_negative (k : Z) (df : DataFrame) :
  NoDup (column_names df) →
  0 < k ≤ Z.of_nat (length (columns df)) →
  remove_columns [- k] "interval" df
  = Ok {| index := index df;
          columns := drop (length (columns df) - Z.to_nat k) (columns df) |}.
Proof.
  intros Hnd Hk.
  assert (length (column_names df) = length (columns df)) as Hn.
  { unfold column_names. by rewrite length_fmap. }
  unfold remove_columns.
  change (bool_decide ("interval" = "interval")) with true. cbv iota.
  rewrite drop_columns_present by apply py_slice_subseteq.
  rewrite py_slice_from_end by (rewrite Hn; lia). rewrite Hn.
  unfold column_names. rewrite filter_slice_distinct by (done || lia).
  done.
Qed.

Lemma remove_columns_interval_negative_example :
  remove_columns [-1] "interval" df_exemplo
  = Ok {| index := [0; 1; 2; 3; 4];
          columns := [("C", [VInt 10; VInt 20; VInt 30; VInt 40; VInt 50])] |}.
Proof.
  apply (remove_columns_interval_negative 1 df_exemplo).
  - apply (bool_decide_unpack _). vm_compute. exact I.
  - simpl. lia.
Defined.

(** X8: columns are removed by name.  Removing the column at one position
    removes every column that carries the same name, wherever it stands. *)
Theorem remove_columns_takes_namesakes (i : nat) (name : string) (cells : list value)
    (df : DataFrame) :
  columns df !! i = Some (name, cells) →
  remove_columns [Z.of_nat i] "individual" df
  = Ok {| index := index df;
          columns := filter (λ c, c.1 ≠ name) (columns df) |}.
Proof.
  intros Hi. unfold remove_columns. cbn [bool_decide decide_rel].
  change (bool_decide ("individual" = "interval")) with false. cbv iota.
  assert (column_names df !! i = Some name) as Hname.
  { unfold column_names. by rewrite list_lookup_fmap, Hi. }
  pose proof (lookup_lt_Some _ _ _ Hname) as Hlt.
  cbn [py_items]. unfold py_item.
  destruct (Z.leb_spec (- Z.of_nat (length (column_names df))) (Z.of_nat i)); [|lia].
  destruct (Z.ltb_spec (Z.of_nat i) (Z.of_nat (length (column_names df)))); [|lia].
  destruct (Z.ltb_spec (Z.of_nat i) 0); [lia|]. cbn [andb].
  rewrite Nat2Z.id, Hname. cbn [rbind].
  rewrite drop_columns_present.
  - do 2 f_equal. apply list_filter_iff. intros c. by rewrite list_elem_of_singleton.
  - intros n ->%list_elem_of_singleton. by eapply list_elem_of_lookup_2.
Qed.

Lemma remove_columns_takes_namesakes_example :
  remove_columns [0] "individual" df_nome_repetido
  = Ok {| index := [0; 1]; columns := [("B", [VStr "x"; VStr "y"])] |}.
Proof.
  apply (remove_columns_takes_namesakes 0 "A" [VInt 1; VInt 2] df_nome_repetido).
  reflexivity.
Defined.

(** ** Interval mode with an unsupported number of indices *)

(** What an index list selects: the elements at the listed positions, a
    negative position counting from the end. *)
Lemma py_item_lookup {A} (l : list A) (i : Z) (x : A) :
  py_item l i = Ok x → l !! Z.to_nat (i `mod` Z.of_nat (length l)) = Some x.
Proof.
  unfold py_item.
  destruct (Z.leb_spec (- Z.of_nat (length l)) i); [|done].
  destruct (Z.ltb_spec i (Z.of_nat (length l))); [|done]. cbn [andb].
  assert ((if i <? 0 then i + Z.of_nat (length l) else i)
          = i `mod` Z.of_nat (length l)) as ->.
  { destruct (Z.ltb_spec i 0).
    - rewrite <- (Z.mod_small (i + Z.of_nat (length l)) (Z.of_nat (length l))) by lia.
      rewrite <- (Z.mul_1_l (Z.of_nat (length l))) at 1.
      apply Z_mod_plus_full.
    - by rewrite Z.mod_small by lia. }
  destruct (l !! _) as [y|]; [|done]. by intros [= ->].
Qed.

Lemma py_items_names {A} (l : list A) (idxs : list Z) (xs : list A) :
  py_items l idxs = Ok xs →
  ∀ x, x ∈ xs ↔ ∃ i, i ∈ idxs ∧ l !! Z.to_nat (i `mod` Z.of_nat (length l)) = Some x.
Proof.
  revert xs. induction idxs as [|i idxs IH]; intros xs Hxs x.
  { injection Hxs as <-. split; [by intros ?%elem_of_nil|].
    by intros (i & ?%elem_of_nil & _). }
  cbn [py_items] in Hxs.
  destruct (py_item l i) as [y|e] eqn:Hy; [|done]. cbn [rbind] in Hxs.
  destruct (py_items l idxs) as [ys|e] eqn:Hys; [|done]. cbn [rbind] in Hxs.
  injection Hxs as <-. apply py_item_lookup in Hy.
  rewrite elem_of_cons, (IH ys eq_refl x). split.
  - intros [->|(j & Hj & Hx)].
    + exists i. split; [left|done].
    + exists j. split; [by right|done].
  - intros (j & [->|Hj]%elem_of_cons & Hx).
    + left. congruence.
    + right. by exists j.
Qed.

(** Filtering on a property that holds of exactly the elements whose
    position is not targeted is deleting by position. *)
Lemma filter_positions {A} (P : A → Prop) `{!∀ x, Decision (P x)} (from : Z)
    (targets : list Z) (l : list A) :
  (∀ j x, l !! j = Some x → (P x ↔ from + Z.of_nat j ∉ targets)) →
  filter P l = spec_delete_positions from targets l.
Proof.
  revert from. induction l as [|x l IH]; intros from HP; [done|].
  cbn [spec_delete_positions].
  assert (filter P l = spec_delete_positions (from + 1) targets l) as Htl.
  { apply IH. intros j y Hy. rewrite (HP (S j) y Hy).
    by replace (from + Z.of_nat (S j)) with (from + 1 + Z.of_nat j) by lia. }
  pose proof (HP 0%nat x eq_refl) as Hx. rewrite Z.add_0_r in Hx.
  case_bool_decide.
  - rewrite filter_cons_False by (rewrite Hx; tauto). exact Htl.
  - rewrite filter_cons_True by (by rewrite Hx). by f_equal.
Qed.

(** C10 (as amended): in interval mode with no index, or with three or
    more, [remove_lines] and [remove_columns] do what they do in
    individual mode, and no error is about the number of indices.

    Rows go by index label, not by position: the rows whose label is
    listed are deleted, and a listed label that is not in the index raises
    [KeyError]; on a table with the default index 0..len-1 these are the
    rows at the listed positions, as long as the positions are inside the
    table.

    Columns go by position and then by name: with every index in -n..n-1,
    n the number of columns, a column stays exactly when its name is not
    the name of the column at a listed position (a negative position
    counting from the end); an index outside that range raises
    [IndexError].  When the column names are distinct and the positions
    are not negative, exactly the columns at the listed positions are
    deleted. *)
Theorem interval_with_other_arity_drops_listed (args : list Z) (df : DataFrame) :
  let n := Z.of_nat (length (columns df)) in
  length args ≠ 1%nat → length args ≠ 2%nat → wf df →
  remove_lines args "interval" df = remove_lines args "individual" df ∧
  remove_columns args "interval" df = remove_columns args "individual" df ∧
  (Forall (λ l, l ∈ index df) args →
     ∃ out, remove_lines args "interval" df = Ok out ∧
            column_names out = column_names df ∧
            rows out = filter (λ r, r.1 ∉ args) (rows df)) ∧
  (¬ Forall (λ l, l ∈ index df) args →
     remove_lines args "interval" df = Err KeyError) ∧
  (index df = seqZ 0 (Z.of_nat (length (index df))) →
   Forall (λ i, 0 ≤ i < Z.of_nat (length (index df))) args →
     ∃ out, remove_lines args "interval" df = Ok out ∧
            column_names out = column_names df ∧
            rows out = spec_delete_positions 0 args (rows df)) ∧
  (Forall (λ i, - n ≤ i < n) args →
     ∃ out, remove_columns args "interval" df = Ok out ∧
            index out = index df ∧
            columns out
            = filter (λ c, Forall (λ i, column_names df !! Z.to_nat (i `mod` n)
                                        ≠ Some c.1) args)
                     (columns df)) ∧
  (¬ Forall (λ i, - n ≤ i < n) args →
     remove_columns args "interval" df = Err IndexError) ∧
  (NoDup (column_names df) → Forall (λ i, 0 ≤ i < n) args →
     ∃ out, remove_columns args "interval" df = Ok out ∧
            index out = index df ∧
            columns out = spec_delete_positions 0 args (columns df)).
Proof.
  intros n H1 H2 Hwf.
  assert (Z.of_nat (length (column_names df)) = n) as Hn.
  { unfold column_names. by rewrite length_fmap. }
  assert (∀ mode, remove_lines args mode df = drop_rows args df) as Hlines.
  { intros mode. unfold remove_lines. case_bool_decide; [|done].
    by destruct args as [|a [|b [|c args]]]. }
  assert (∀ mode, remove_columns args mode df
                  = rbind (py_items (column_names df) args)
                          (λ names, drop_columns names df)) as Hcols.
  { intros mode. unfold remove_columns. case_bool_decide; [|done].
    by destruct args as [|a [|b [|c args]]]. }
  rewrite !Hlines, !Hcols.
  destruct (drop_rows_spec args df Hwf) as [Hok Herr].
  assert (Forall (λ i, - n ≤ i < n) args →
          ∃ out, rbind (py_items (column_names df) args)
                       (λ names, drop_columns names df) = Ok out ∧
                 index out = index df ∧
                 columns out
                 = filter (λ c, Forall (λ i, column_names df !! Z.to_nat (i `mod` n)
                                             ≠ Some c.1) args)
                          (columns df)) as Hkept.
  { intros Hin. rewrite <- Hn in Hin.
    destruct (py_items_ok _ _ Hin) as (names & Hnames & Hsub).
    pose proof (py_items_names _ _ _ Hnames) as Hmem. rewrite Hn in Hmem.
    rewrite Hnames. cbn [rbind]. rewrite drop_columns_present by done.
    eexists. split_all; [done..|]. simpl.
    apply list_filter_iff. intros c. rewrite Hmem, Forall_forall. split.
    - intros Hnone i Hi Hc. apply Hnone. by exists i.
    - intros Hall (i & Hi & Hc). by apply (Hall i Hi). }
  split_all; [done|done|exact Hok|exact Herr| |exact Hkept| |].
  - intros Hidx Hin. destruct Hok as (out & Hout & Hnames & Hrows).
    { eapply Forall_impl; [exact Hin|]. intros t Ht. simpl in Ht.
      rewrite Hidx. apply elem_of_seqZ. lia. }
    exists out. split_all; [done..|]. rewrite Hrows.
    apply filter_labels_positions.
    unfold rows. rewrite rows_of_labels.
    assert (length (rows_of (index df) (columns df).*2) = length (index df)) as ->.
    { rewrite <- (rows_of_labels (index df) (columns df).*2) at 2.
      by rewrite length_fmap. }
    exact Hidx.
  - intros Hout. rewrite py_items_out_of_bounds; [done|]. by rewrite Hn.
  - intros Hdistinct Hin. destruct Hkept as (out & Hout & Hindex & Hcolumns).
    { eapply Forall_impl; [exact Hin|]. simpl. lia. }
    exists out. split_all; [done..|]. rewrite Hcolumns.
    apply filter_positions. intros j c Hj. rewrite Z.add_0_l.
    assert (column_names df !! j = Some c.1) as Hname.
    { unfold column_names. by rewrite list_lookup_fmap, Hj. }
    rewrite Forall_forall. split.
    + intros Hall Hmem. apply (Hall _ Hmem).
      apply lookup_lt_Some in Hj.
      rewrite Z.mod_small by (unfold n; lia). by rewrite Nat2Z.id.
    + intros Hnot i Hi Hc. apply Hnot.
      pose proof (proj1 (Forall_forall _ _) Hin i Hi) as Hrange. simpl in Hrange.
      rewrite Z.mod_small in Hc by lia.
      rewrite <- (NoDup_lookup _ _ _ _ Hdistinct Hc Hname).
      by rewrite Z2Nat.id by lia.
Qed.

Lemma interval_with_other_arity_examples :
  remove_lines [0; 2; 3] "interval" df_sem_linha_1
    = remove_lines [0; 2; 3] "individual" df_sem_linha_1 ∧
  remove_columns [0; -1; 0] "interval" df_exemplo
    = remove_columns [0; -1; 0] "individual" df_exemplo ∧
  (∃ out, remove_lines [0; 2; 3] "interval" df_sem_linha_1 = Ok out ∧
          column_names out = column_names df_sem_linha_1 ∧
          rows out = filter (λ r, r.1 ∉ [0; 2; 3]) (rows df_sem_linha_1) ∧
          index out = [4]) ∧
  remove_lines [0; 1; 2] "interval" df_sem_linha_1 = Err KeyError ∧
  (∃ out, remove_lines [0; 2; 4] "interval" df_exemplo = Ok out ∧
          column_names out = column_names df_exemplo ∧
          rows out = spec_delete_positions 0 [0; 2; 4] (rows df_exemplo) ∧
          index out = [1; 3]) ∧
  (∃ out, remove_columns [0; -1; 0] "interval" df_exemplo = Ok out ∧
          index out = index df_exemplo ∧
          column_names out = ["B"]) ∧
  remove_columns [0; 1; 3] "interval" df_exemplo = Err IndexError ∧
  (∃ out, remove_columns [] "interval" df_exemplo = Ok out ∧
          index out = index df_exemplo ∧
          columns out = spec_delete_positions 0 [] (columns df_exemplo) ∧
          out = df_exemplo).
Proof.
  assert (wf df_exemplo) as Hwf by (repeat constructor).
  assert (wf df_sem_linha_1) as Hwf' by (repeat constructor).
  assert (∀ k : nat, (k = 3 ∨ k = 0)%nat → k ≠ 1%nat ∧ k ≠ 2%nat) as Hlen by lia.
  pose proof (λ args df (H : (length args = 3 ∨ length args = 0)%nat),
              interval_with_other_arity_drops_listed args df
                (proj1 (Hlen _ H)) (proj2 (Hlen _ H))) as Hthm.
  split_all.
  - apply (Hthm [0; 2; 3] df_sem_linha_1 (or_introl eq_refl) Hwf').
  - apply (Hthm [0; -1; 0] df_exemplo (or_introl eq_refl) Hwf).
  - destruct (proj1 (proj2 (proj2 (Hthm [0; 2; 3] df_sem_linha_1
                                      (or_introl eq_refl) Hwf'))))
      as (out & Hout & Hnames & Hrows).
    { apply (bool_decide_unpack _). vm_compute. exact I. }
    exists out. split_all; [exact Hout|exact Hnames|exact Hrows|].
    vm_compute in Hout. by injection Hout as <-.
  - apply (proj1 (proj2 (proj2 (proj2 (Hthm [0; 1; 2] df_sem_linha_1
                                         (or_introl eq_refl) Hwf'))))).
    apply (bool_decide_unpack _). vm_compute. exact I.
  - destruct (proj1 (proj2 (proj2 (proj2 (proj2 (Hthm [0; 2; 4] df_exemplo
                                                   (or_introl eq_refl) Hwf))))))
      as (out & Hout & Hnames & Hrows).
    { reflexivity. }
    { repeat constructor; simpl; lia. }
    exists out. split_all; [exact Hout|exact Hnames|exact Hrows|].
    vm_compute in Hout. by injection Hout as <-.
  - destruct (proj1 (proj2 (proj2 (proj2 (proj2 (proj2 (Hthm [0; -1; 0] df_exemplo
                                                          (or_introl eq_refl) Hwf)))))))
      as (out & Hout & Hindex & Hcolumns).
    { repeat constructor; simpl; lia. }
    exists out. split_all; [exact Hout|exact Hindex|].
    vm_compute in Hout. by injection Hout as <-.
  - apply (proj1 (proj2 (proj2 (proj2 (proj2 (proj2 (proj2
             (Hthm [0; 1; 3] df_exemplo (or_introl eq_refl) Hwf)))))))).
    intros Hall. apply Forall_cons in Hall as [_ Hall].
    apply Forall_cons in Hall as [_ Hall]. apply Forall_cons in Hall as [Hall _].
    simpl in Hall. lia.
  - destruct (proj2 (proj2 (proj2 (proj2 (proj2 (proj2 (proj2
                (Hthm [] df_exemplo (or_intror eq_refl) Hwf))))))))
      as (out & Hout & Hindex & Hcolumns).
    { apply (bool_decide_unpack _). vm_compute. exact I. }
    { constructor. }
    exists out. split_all; [exact Hout|exact Hindex|exact Hcolumns|].
    vm_compute in Hout. by injection Hout as <-.
Defined.

(** C10 as the specification has it fails for rows: the listed numbers
    are index labels, not positions.  On the fixture without its row 1,
    whose four rows carry the labels 0, 2, 3 and 4, interval mode with the
    three indices 0, 1, 2 raises [KeyError] although the table has rows at
    the positions 0, 1 and 2; with the indices 0, 2, 3 it deletes the rows
    at the positions 0, 1 and 2 and leaves the row labelled 4, not the row
    at position 1. *)
Lemma interval_with_other_arity_is_not_positional :
  Forall (λ i, 0 ≤ i < Z.of_nat (length (rows df_sem_linha_1))) [0; 1; 2] ∧
  remove_lines [0; 1; 2] "interval" df_sem_linha_1 = Err KeyError ∧
  ¬ (∃ out, remove_lines [0; 1; 2] "interval" df_sem_linha_1 = Ok out ∧
            rows out = spec_delete_positions 0 [0; 1; 2] (rows df_sem_linha_1)) ∧
  ¬ (∃ out, remove_lines [0; 2; 3] "interval" df_sem_linha_1 = Ok out ∧
            rows out = spec_delete_positions 0 [0; 2; 3] (rows df_sem_linha_1)).
Proof.
  split_all.
  - repeat constructor; simpl; lia.
  - reflexivity.
  - intros (out & Hout & _). vm_compute in Hout. discriminate Hout.
  - intros (out & Hout & Hrows). vm_compute in Hout. injection Hout as <-.
    vm_compute in Hrows. discriminate Hrows.
Qed.

(** ** Removing rows *)

(** The labels a call of [remove_lines] hands to [df.drop] do not depend
    on the table. *)
Lemma remove_lines_as_drop (args : list Z) (mode : string) :
  ∃ labels, ∀ df, remove_lines args mode df = drop_rows labels df.
Proof.
  unfold remove_lines.
  destruct (bool_decide (mode = "interval")), args as [|a [|b [|c args]]]; eauto.
Qed.

Lemma select_rows_all (mask : list bool) (df : DataFrame) :
  wf df → Forall (λ b, b = true) mask → length mask = length (index df) →
  select_rows mask df = df.
Proof.
  intros Hwf Hall Hlen. destruct df as [idx cols]. unfold select_rows, wf in *.
  cbn [index columns] in *. f_equal; [by apply select_all|].
  rewrite <- (list_fmap_id cols) at 2. apply Forall_fmap_ext.
  eapply Forall_impl; [exact Hwf|]. intros [n c] Hc. cbn in *.
  f_equal. apply select_all; [done|]. by rewrite Hc.
Qed.

Lemma drop_rows_nil (df : DataFrame) : wf df → drop_rows [] df = Ok df.
Proof.
  intros Hwf. unfold drop_rows. rewrite bool_decide_eq_true_2 by constructor.
  f_equal. apply select_rows_all; [done| |by rewrite length_fmap].
  apply Forall_fmap, Forall_true. intros l. cbn.
  apply bool_decide_eq_true_2, not_elem_of_nil.
Qed.

Lemma drop_rows_gone (labels : list Z) (df out : DataFrame) (l : Z) :
  drop_rows labels df = Ok out → l ∈ labels → l ∉ index out.
Proof.
  unfold drop_rows. case_bool_decide; [|done]. intros [= <-] Hl.
  unfold select_rows. cbn [index]. rewrite select_fmap_filter.
  intros [Hnot _]%list_elem_of_filter. by apply bool_decide_unpack in Hnot.
Qed.

Lemma drop_rows_repeat (labels : list Z) (df out : DataFrame) :
  labels ≠ [] → drop_rows labels df = Ok out → drop_rows labels out = Err KeyError.
Proof.
  intros Hne Hout. destruct labels as [|l labels]; [done|].
  pose proof (drop_rows_gone _ _ _ l Hout ltac:(left)) as Hgone.
  unfold drop_rows. rewrite bool_decide_eq_false_2; [done|].
  intros Hall. by apply Forall_cons in Hall as [? _].
Qed.

Lemma py_range_nonempty (a b : Z) : a < b → py_range a b ≠ [].
Proof.
  intros Hab. unfold py_range. rewrite seqZ_cons by lia. done.
Qed.

(** X9: row removal is not repeatable.  If a call of [remove_lines] that
    names at least one row succeeded, then none of the labels it named is
    in the result, and the same call on the result raises [KeyError].  The
    calls that name a row are: interval mode with one index above 0, which
    names 0..n-1; interval mode with two indices a < b, which names
    a..b-1; and every other call with a list that is not empty, which
    names the listed labels. *)
Theorem remove_lines_twice (df out : DataFrame) :
  (∀ args mode, args ≠ [] →
     (mode = "interval" → length args ≠ 1%nat ∧ length args ≠ 2%nat) →
     remove_lines args mode df = Ok out →
     Forall (λ l, l ∉ index out) args ∧
     remove_lines args mode out = Err KeyError) ∧
  (∀ n, 0 < n →
     remove_lines [n] "interval" df = Ok out →
     Forall (λ l, l ∉ index out) (py_range 0 n) ∧
     remove_lines [n] "interval" out = Err KeyError) ∧
  (∀ a b, a < b →
     remove_lines [a; b] "interval" df = Ok out →
     Forall (λ l, l ∉ index out) (py_range a b) ∧
     remove_lines [a; b] "interval" out = Err KeyError).
Proof.
  assert (∀ labels, labels ≠ [] → drop_rows labels df = Ok out →
            Forall (λ l, l ∉ index out) labels ∧ drop_rows labels out = Err KeyError)
    as Hdrop.
  { intros labels Hne Hout. split; [|by eapply drop_rows_repeat].
    apply Forall_forall. intros l Hl. by eapply drop_rows_gone. }
  split_all.
  - intros args mode Hargs Hmode.
    assert (∀ d, remove_lines args mode d = drop_rows args d) as Hind.
    { intros d. unfold remove_lines. case_bool_decide as Hm; [|done].
      destruct (Hmode Hm) as [H1 H2]. by destruct args as [|? [|? []]]. }
    rewrite !Hind. by apply Hdrop.
  - intros n Hn. apply Hdrop. by apply py_range_nonempty.
  - intros a b Hab. apply Hdrop. by apply py_range_nonempty.
Qed.

Lemma remove_lines_twice_example :
  ∃ out mid last,
    remove_lines [1; 3] "individual" df_exemplo = Ok out ∧
    index out = [0; 2; 4] ∧
    Forall (λ l, l ∉ index out) [1; 3] ∧
    remove_lines [1; 3] "individual" out = Err KeyError ∧
    remove_lines [2] "interval" df_exemplo = Ok mid ∧
    index mid = [2; 3; 4] ∧
    Forall (λ l, l ∉ index mid) (py_range 0 2) ∧
    remove_lines [2] "interval" mid = Err KeyError ∧
    remove_lines [1; 3] "interval" df_exemplo = Ok last ∧
    index last = [0; 3; 4] ∧
    Forall (λ l, l ∉ index last) (py_range 1 3) ∧
    remove_lines [1; 3] "interval" last = Err KeyError.
Proof.
  eexists _, _, _.
  split; [reflexivity|]. split; [reflexivity|].
  apply and_assoc. split.
  { apply (proj1 (remove_lines_twice df_exemplo _) [1; 3] "individual");
      [done|done|reflexivity]. }
  split; [reflexivity|]. split; [reflexivity|].
  apply and_assoc. split.
  { apply (proj1 (proj2 (remove_lines_twice df_exemplo _)) 2); [lia|reflexivity]. }
  split; [reflexivity|]. split; [reflexivity|].
  apply (proj2 (proj2 (remove_lines_twice df_exemplo _)) 1 3); [lia|reflexivity].
Defined.

(** X10: in individual mode only the set of listed labels matters:
    listing a row twice, or listing the rows in another order, gives the
    same outcome. *)
Theorem remove_lines_order_irrelevant (args args' : list Z) (df : DataFrame) :
  (∀ l, l ∈ args ↔ l ∈ args') →
  remove_lines args "individual" df = remove_lines args' "individual" df.
Proof.
  intros Hsame.
  assert (∀ a, remove_lines a "individual" df = drop_rows a df) as Hind.
  { intros a. unfold remove_lines. by destruct a as [|? [|? []]]. }
  rewrite !Hind. unfold drop_rows.
  assert (Forall (λ l, l ∈ index df) args ↔ Forall (λ l, l ∈ index df) args') as Hall.
  { rewrite !Forall_forall. split; intros H l Hl; apply H, Hsame, Hl. }
  rewrite (bool_decide_ext _ _ Hall). case_bool_decide; [|done].
  do 2 f_equal. apply list_fmap_ext. intros _ l _. cbn.
  apply bool_decide_ext. by rewrite Hsame.
Qed.

Lemma remove_lines_order_irrelevant_example :
  remove_lines [3; 1; 3] "individual" df_exemplo
  = remove_lines [1; 3] "individual" df_exemplo.
Proof.
  apply (remove_lines_order_irrelevant [3; 1; 3] [1; 3] df_exemplo).
  intros l. rewrite !elem_of_cons, !elem_of_nil. tauto.
Defined.

(** X11: an interval that is empty removes no row: with one index that is
    zero or negative, or with two indices of which the second does not
    exceed the first, [remove_lines] returns the table as it was and does
    not raise. *)
Theorem remove_lines_empty_interval (a b : Z) (df : DataFrame) :
  wf df →
  (a ≤ 0 → remove_lines [a] "interval" df = Ok df) ∧
  (b ≤ a → remove_lines [a; b] "interval" df = Ok df).
Proof.
  intros Hwf. unfold remove_lines, py_range.
  change (bool_decide ("interval" = "interval")) with true. cbv iota.
  split; intros Hle.
  - replace (seqZ 0 (a - 0)) with (@nil Z); [by apply drop_rows_nil|].
    unfold seqZ. by replace (Z.to_nat (a - 0)) with 0%nat by lia.
  - replace (seqZ a (b - a)) with (@nil Z); [by apply drop_rows_nil|].
    unfold seqZ. by replace (Z.to_nat (b - a)) with 0%nat by lia.
Qed.

Lemma remove_lines_empty_interval_example :
  remove_lines [-1] "interval" df_exemplo = Ok df_exemplo ∧
  remove_lines [3; 3] "interval" df_exemplo = Ok df_exemplo.
Proof.
  assert (wf df_exemplo) as Hwf by (repeat constructor).
  split.
  - apply (proj1 (remove_lines_empty_interval (-1) 0 df_exemplo Hwf)). lia.
  - apply (proj2 (remove_lines_empty_interval 3 3 df_exemplo Hwf)). lia.
Defined.

(** ** Filtering rows, again *)

Lemma select_sublist {A} (mask : list bool) (l : list A) :
  select mask l `sublist_of` l.
Proof.
  revert l. induction mask as [|b mask IH]; intros [|x l]; try done.
  { apply sublist_nil_l. }
  destruct b; cbn; [by apply sublist_skip|by apply sublist_cons].
Qed.

Lemma getitem_series_inv (df : DataFrame) (col : string) (cells : list value) :
  getitem df col = Ok (OneSeries cells) →
  filter (λ c, c.1 = col) (columns df) = [(col, cells)].
Proof.
  unfold getitem. destruct (filter _ (columns df)) as [|c [|c' rest]] eqn:Hf; [done| |done].
  intros [= <-]. assert (c ∈ filter (λ c, c.1 = col) (columns df)) as Hin.
  { rewrite Hf. left. }
  apply list_elem_of_filter in Hin as [<- _]. by destruct c.
Qed.

Lemma getitem_select_rows (mask : list bool) (df : DataFrame) (col : string)
    (cells : list value) :
  getitem df col = Ok (OneSeries cells) →
  getitem (select_rows mask df) col = Ok (OneSeries (select mask cells)).
Proof.
  intros Hinv%getitem_series_inv. unfold getitem, select_rows. cbn [columns].
  assert (filter (λ c, c.1 = col) ((λ c, (c.1, select mask c.2)) <$> columns df)
          = (λ c, (c.1, select mask c.2)) <$> filter (λ c, c.1 = col) (columns df))
    as ->.
  { clear Hinv. induction (columns df) as [|c cols IH]; [done|].
    rewrite fmap_cons. destruct (decide (c.1 = col)) as [Hc|Hc].
    - rewrite !filter_cons_True by done. by rewrite fmap_cons, IH.
    - by rewrite !filter_cons_False. }
  by rewrite Hinv.
Qed.

(** What a successful call of [filter_columns] went through. *)
Lemma filter_columns_ok (column : string) (args : filter_args) (df out : DataFrame) :
  filter_columns column args df = Ok out →
  ∃ cells, getitem df column = Ok (OneSeries cells) ∧
           out = select_rows (isin (filter_values args)
                                <$> str_method PyStr.strip cells) df.
Proof.
  unfold filter_columns.
  destruct (getitem df column) as [[cells|cols]|e]; cbn [rbind]; [|done..].
  destruct (str_accessor (OneSeries cells)) as [cells'|e] eqn:Hacc; [|done].
  cbn [rbind]. intros [= <-]. exists cells. split; [done|].
  unfold str_accessor in Hacc. destruct (infer_dtype cells); by simplify_eq.
Qed.

Lemma kept_cells_match (values : list string) (cells : list value) :
  Forall (λ v, ∃ s, v = VStr s ∧ PyStr.strip s ∈ values)
         (select (isin values <$> str_method PyStr.strip cells) cells).
Proof.
  unfold str_method. rewrite <- list_fmap_compose, select_fmap_filter.
  apply Forall_forall. intros v [Hv _]%list_elem_of_filter.
  destruct v; try done. cbn in Hv. apply bool_decide_unpack in Hv. eauto.
Qed.

Lemma filter_columns_kept (column : string) (args : filter_args) (df out : DataFrame) :
  filter_columns column args df = Ok out →
  index out `sublist_of` index df ∧
  column_names out = column_names df ∧
  ∃ cells, getitem out column = Ok (OneSeries cells) ∧
           Forall (λ v, ∃ s, v = VStr s ∧ PyStr.strip s ∈ filter_values args) cells.
Proof.
  intros (cells & Hget & ->)%filter_columns_ok. split_all.
  - apply select_sublist.
  - apply column_names_select_rows.
  - eexists. split; [by apply getitem_select_rows|]. apply kept_cells_match.
Qed.

(** X12: whenever [filter_columns] returns a table for a column of ASCII
    text, the column it filtered on holds only strings, still ASCII, whose
    trimmed text is one of the values, and the rows kept still carry the
    labels they had, in the same order. *)
Theorem filter_columns_kept_cells (column : string) (args : filter_args)
    (df out : DataFrame) :
  Forall (λ c, c.1 = column → Forall (λ v, ascii_cell v) c.2) (columns df) →
  filter_columns column args df = Ok out →
  index out `sublist_of` index df ∧
  column_names out = column_names df ∧
  ∃ cells, getitem out column = Ok (OneSeries cells) ∧
           Forall (λ v, ∃ s, v = VStr s ∧ PyStr.is_ascii s ∧
                             PyStr.strip s ∈ filter_values args) cells.
Proof.
  intros Hascii Hout.
  destruct (filter_columns_kept column args df out Hout)
    as (Hidx & Hnames & cells & Hget & Hcells).
  split_all; [done..|]. exists cells. split; [done|].
  apply filter_columns_ok in Hout as (cells0 & Hget0 & ->).
  rewrite (getitem_select_rows _ df column cells0 Hget0) in Hget.
  injection Hget as <-.
  assert (Forall (λ v, ascii_cell v) cells0) as Hcells0.
  { apply getitem_series_elem in Hget0.
    by apply (proj1 (Forall_forall _ _) Hascii) in Hget0 as Hc; [apply Hc|]. }
  apply Forall_forall. intros v Hv.
  destruct (proj1 (Forall_forall _ _) Hcells v Hv) as (s & -> & Hs).
  exists s. split_all; [done| |done].
  eapply elem_of_sublist in Hv; [|apply select_sublist].
  by apply (proj1 (Forall_forall _ _) Hcells0) in Hv.
Qed.

Lemma filter_columns_kept_cells_example :
  ∃ out, filter_columns "B" (Collection ["Varejo"; "Atacado"]) df_exemplo = Ok out ∧
         index out = [0; 1; 2; 4] ∧
         index out `sublist_of` index df_exemplo ∧
         ∃ cells, getitem out "B" = Ok (OneSeries cells) ∧
                  Forall (λ v, ∃ s, v = VStr s ∧ PyStr.is_ascii s ∧
                                    PyStr.strip s ∈ ["Varejo"; "Atacado"])
                         cells.
Proof.
  eexists. split; [reflexivity|]. split; [reflexivity|].
  assert (Forall (λ c : string * list value,
                    c.1 = "B" → Forall (λ v, ascii_cell v) c.2)
                 (columns df_exemplo)) as Hascii.
  { repeat constructor. }
  destruct (filter_columns_kept_cells "B" (Collection ["Varejo"; "Atacado"])
              df_exemplo _ Hascii eq_refl) as (Hsub & _ & Hcells).
  split; [exact Hsub|exact Hcells].
Defined.

Lemma str_accessor_all_text (cells : list value) :
  Forall (λ v, ∃ s, v = VStr s) cells → str_accessor (OneSeries cells) = Ok cells.
Proof.
  intros Hall. unfold str_accessor, infer_dtype.
  rewrite filter_all by (eapply Forall_impl; [exact Hall|]; by intros v [s ->]).
  destruct cells as [|v cells]; [done|].
  assert (forallb is_str (v :: cells) = true) as ->; [|done].
  apply forallb_forall. intros x Hx%list_elem_of_In.
  apply (proj1 (Forall_forall _ _) Hall) in Hx as [s ->]. done.
Qed.

(** X13: filtering is idempotent.  Applying the same [filter_columns] to
    its own result succeeds and returns that result unchanged. *)
Theorem filter_columns_idempotent (column : string) (args : filter_args)
    (df out : DataFrame) :
  wf df →
  filter_columns column args df = Ok out →
  filter_columns column args out = Ok out.
Proof.
  intros Hwf Hout.
  assert (wf out) as Hwf'.
  { apply filter_columns_ok in Hout as (cells & _ & ->). by apply wf_select_rows. }
  destruct (filter_columns_kept column args df out Hout)
    as (_ & _ & cells & Hget & Hcells).
  unfold filter_columns. rewrite Hget. cbn [rbind].
  rewrite str_accessor_all_text
    by (eapply Forall_impl; [exact Hcells|]; intros v (s & -> & _); eauto).
  cbn [rbind]. f_equal. apply select_rows_all; [done| |].
  - unfold str_method. rewrite <- list_fmap_compose. apply Forall_fmap.
    eapply Forall_impl; [exact Hcells|]. intros v (s & -> & Hs). cbn.
    by apply bool_decide_eq_true_2.
  - unfold str_method. rewrite !length_fmap.
    apply getitem_series_elem in Hget.
    by apply (proj1 (Forall_forall _ _) Hwf') in Hget.
Qed.

Lemma filter_columns_idempotent_example :
  ∃ out, filter_columns "B" (Variadic ["Varejo"; "Atacado"]) df_exemplo = Ok out ∧
         filter_columns "B" (Variadic ["Varejo"; "Atacado"]) out = Ok out.
Proof.
  eexists. split; [reflexivity|].
  apply (filter_columns_idempotent "B" (Variadic ["Varejo"; "Atacado"]) df_exemplo);
    [repeat constructor|reflexivity].
Defined.

(** ** Key normalisation, again *)

Lemma setitem_lookup_other (df : DataFrame) (col name : string)
    (new cells : list value) (i : nat) :
  name ≠ col →
  columns (setitem df col new) !! i = Some (name, cells) ↔
  columns df !! i = Some (name, cells).
Proof.
  intros Hne. unfold setitem. cbn [columns]. rewrite list_lookup_fmap.
  destruct (columns df !! i) as [[n c]|]; cbn; [|done].
  case_bool_decide as Hn; cbn in Hn; [|done].
  subst n. split; intros [= ? ?]; by subst.
Qed.

Lemma setitem_lookup_same (df : DataFrame) (col : string)
    (new cells : list value) (i : nat) :
  columns (setitem df col new) !! i = Some (col, cells) → cells = new.
Proof.
  unfold setitem. cbn [columns]. rewrite list_lookup_fmap.
  destruct (columns df !! i) as [[n c]|]; cbn; [|done].
  case_bool_decide as Hn; cbn in Hn; intros [= ? ?]; by subst.
Qed.

(** The loop of [clean_key] keeps the index and the names, and leaves
    alone every column whose name is not on its list. *)
Lemma clean_key_loop_frame (column_list : list string) (df out : DataFrame) :
  clean_key_loop column_list df = Ok out →
  index out = index df ∧ column_names out = column_names df ∧
  ∀ i name cells, name ∉ column_list →
    (columns out !! i = Some (name, cells) ↔ columns df !! i = Some (name, cells)).
Proof.
  revert df. induction column_list as [|col rest IH]; intros df.
  { intros [= <-]. by split_all. }
  cbn [clean_key_loop].
  destruct (clean_key_column df col) as [d1|e] eqn:Hstep; [|done]. cbn [rbind].
  intros (Hidx & Hnames & Hframe)%IH.
  destruct (clean_key_column_ok df d1 col Hstep) as (cells0 & _ & ->).
  split_all.
  - by rewrite Hidx.
  - by rewrite Hnames, column_names_setitem.
  - intros i name cells [Hne Hrest]%not_elem_of_cons.
    rewrite Hframe by done. by apply setitem_lookup_other.
Qed.

(** X14: [clean_key] touches the named columns only.  The index, the
    column names and their order, and every cell of every column that was
    not named are the same in the result. *)
Theorem clean_key_touches_named_columns_only (col : col_arg) (df out : DataFrame) :
  clean_key col df = Ok out →
  index out = index df ∧ column_names out = column_names df ∧
  ∀ i name cells,
    name ∉ match col with OneColumn c => [c] | ColumnList l => l end →
    columns df !! i = Some (name, cells) → columns out !! i = Some (name, cells).
Proof.
  unfold clean_key. intros (Hidx & Hnames & Hframe)%clean_key_loop_frame.
  split_all; [done..|]. intros i name cells Hname Hcol. by apply Hframe.
Qed.

Lemma clean_key_touches_named_columns_only_example :
  ∃ out, clean_key (OneColumn "B") df_exemplo = Ok out ∧
         index out = index df_exemplo ∧
         column_names out = column_names df_exemplo ∧
         columns out !! 2%nat = Some ("C", [VInt 10; VInt 20; VInt 30; VInt 40; VInt 50]).
Proof.
  eexists. split; [reflexivity|].
  destruct (clean_key_touches_named_columns_only (OneColumn "B") df_exemplo _ eq_refl)
    as (Hidx & Hnames & Hframe).
  split_all; [exact Hidx|exact Hnames|].
  apply Hframe; [|reflexivity].
  apply (bool_decide_unpack _). vm_compute. exact I.
Defined.

Lemma clean_key_cell_normal (u : value) :
  clean_key_cell u = VNA ∨
  ∃ t, clean_key_cell u = VStr t ∧ PyStr.strip t = t ∧ PyStr.upper t = t ∧
       t ≠ "NAN" ∧ t ≠ "NONE".
Proof.
  destruct (clean_key_cell_cases u) as [->|(s & -> & Hnan & Hnone)]; [by left|].
  right. eexists. split_all; [done| | |done|done].
  - by rewrite strip_upper, strip_idemp.
  - apply upper_idemp.
Qed.

Lemma clean_key_loop_normal (column_list : list string) (df out : DataFrame) :
  clean_key_loop column_list df = Ok out →
  ∀ name cells, name ∈ column_list → (name, cells) ∈ columns out →
    ∃ before, cells = clean_key_cell <$> before.
Proof.
  revert df. induction column_list as [|col rest IH]; intros df Hloop name cells Hin Hcol.
  { by apply elem_of_nil in Hin. }
  cbn [clean_key_loop] in Hloop.
  destruct (clean_key_column df col) as [d1|e] eqn:Hstep; [|done].
  cbn [rbind] in Hloop.
  destruct (decide (name ∈ rest)) as [Hrest|Hrest]; [by eapply IH|].
  apply elem_of_cons in Hin as [->|?]; [|done].
  destruct (clean_key_column_ok df d1 col Hstep) as (cells0 & _ & ->).
  destruct (clean_key_loop_frame rest _ out Hloop) as (_ & _ & Hframe).
  apply list_elem_of_lookup in Hcol as [i Hi].
  apply Hframe in Hi; [|done]. apply setitem_lookup_same in Hi. eauto.
Qed.

(** X15: after [clean_key], every cell of a named column is either the
    marker [pd.NA] or a text that is already trimmed and upper-cased and is
    neither NAN nor NONE; no integer, NaN or None is left in it. *)
Theorem clean_key_normal_form (col : col_arg) (df out : DataFrame) :
  clean_key col df = Ok out →
  ∀ name cells,
    name ∈ match col with OneColumn c => [c] | ColumnList l => l end →
    (name, cells) ∈ columns out →
    Forall (λ v, v = VNA ∨
                 ∃ t, v = VStr t ∧ PyStr.strip t = t ∧ PyStr.upper t = t ∧
                      t ≠ "NAN" ∧ t ≠ "NONE") cells.
Proof.
  unfold clean_key. intros Hloop name cells Hname Hcol.
  destruct (clean_key_loop_normal _ df out Hloop name cells Hname Hcol) as [before ->].
  apply Forall_fmap, Forall_true. intros u. cbn. apply clean_key_cell_normal.
Qed.

Lemma clean_key_normal_form_example :
  ∃ out, clean_key (ColumnList ["X"]) df_chaves = Ok out ∧
         Forall (λ v, v = VNA ∨
                      ∃ t, v = VStr t ∧ PyStr.strip t = t ∧ PyStr.upper t = t ∧
                           t ≠ "NAN" ∧ t ≠ "NONE")
                [VStr "AB"; VNA; VNA; VStr "7"].
Proof.
  eexists. split; [reflexivity|].
  apply (clean_key_normal_form (ColumnList ["X"]) df_chaves _ eq_refl "X").
  - apply (bool_decide_unpack _). vm_compute. exact I.
  - left.
Defined.

(** ** Unique values, again *)

Lemma unique_elem (seen l : list string) (x : string) :
  x ∈ unique seen l → x ∈ l ∧ x ∉ seen.
Proof.
  revert seen. induction l as [|y l IH]; intros seen; cbn [unique].
  { by intros ?%elem_of_nil. }
  case_bool_decide as Hy.
  - intros [Hl Hs]%IH. split; [by right|done].
  - intros [->|[Hl Hs]%IH]%elem_of_cons; [split; [by left|done]|].
    split; [by right|]. intros Hx. apply Hs. by right.
Qed.

Lemma NoDup_unique (seen l : list string) : NoDup (unique seen l).
Proof.
  revert seen. induction l as [|y l IH]; intros seen; cbn [unique].
  { constructor. }
  case_bool_decide; [apply IH|]. apply NoDup_cons. split; [|apply IH].
  intros [_ Hy]%unique_elem. apply Hy. by left.
Qed.

Lemma stripped_texts_trimmed (cells : list value) (t : string) :
  t ∈ omap (λ v, match v with VStr s => Some s | _ => None end)
           (str_method PyStr.strip cells) →
  PyStr.strip t = t.
Proof.
  unfold str_method. intros (v & Hv & Ht)%list_elem_of_omap.
  apply list_elem_of_fmap in Hv as (u & -> & _).
  destruct u; try done. injection Ht as <-. apply strip_idemp.
Qed.

(** What [extract_column] does with a table does not depend on the mode
    until the very end: either it raises whatever the mode and the
    reference values, or it has found the unique trimmed texts of the
    column and only then looks at the mode. *)
Lemma extract_column_shape (column : string) (df : DataFrame) :
  (∃ e, e ≠ ValueError ∧ ∀ mode args, extract_column column mode args df = Err e) ∨
  (∃ found, NoDup found ∧ Forall (λ t, PyStr.strip t = t) found ∧
     ∀ mode args,
       extract_column column mode args df
       = if bool_decide (mode = "not-in") then Ok (filter (λ t, t ∉ args) found)
         else if bool_decide (mode = "in") then Ok (filter (λ t, t ∈ args) found)
         else Err ValueError).
Proof.
  unfold extract_column. case_bool_decide.
  { left. by exists KeyError. }
  destruct (getitem _ column) as [sel|e] eqn:Hget; cbn [rbind].
  2:{ left. exists e. split; [|done]. unfold getitem in Hget.
      destruct (filter _ _) as [|? [|]]; by simplify_eq. }
  destruct (str_accessor _) as [cells|e] eqn:Hacc; cbn [rbind].
  2:{ left. exists e. split; [|done]. unfold str_accessor in Hacc.
      destruct sel; [destruct (infer_dtype _)|]; by simplify_eq. }
  right. eexists. split_all; [apply NoDup_unique| |done].
  apply Forall_forall. intros t [Ht _]%unique_elem.
  by eapply stripped_texts_trimmed.
Qed.

(** X16: a list returned by [extract_column] has no repetition and holds
    only trimmed texts; in mode not-in none of them is a reference value,
    in mode in all of them are; and a list is returned in these two modes
    only. *)
Theorem extract_column_result (column mode : string) (args found : list string)
    (df : DataFrame) :
  extract_column column mode args df = Ok found →
  NoDup found ∧ Forall (λ t, PyStr.strip t = t) found ∧
  (mode = "not-in" ∧ Forall (λ t, t ∉ args) found ∨
   mode = "in" ∧ Forall (λ t, t ∈ args) found).
Proof.
  destruct (extract_column_shape column df)
    as [(e & _ & Herr)|(all & Hnd & Htrim & Hshape)].
  { by rewrite Herr. }
  rewrite Hshape.
  assert (∀ (P : string → Prop) `{!∀ t, Decision (P t)},
            NoDup (filter P all) ∧ Forall (λ t, PyStr.strip t = t) (filter P all) ∧
            Forall P (filter P all)) as Hfilter.
  { intros P ?. split_all.
    - by apply NoDup_filter.
    - apply Forall_forall. intros t [_ Ht]%list_elem_of_filter.
      by apply (proj1 (Forall_forall _ _) Htrim).
    - apply Forall_forall. by intros t [Ht _]%list_elem_of_filter. }
  repeat case_bool_decide; intros [= <-].
  - destruct (Hfilter (λ t, t ∉ args) _) as (? & ? & ?). split_all; [done..|]. by left.
  - destruct (Hfilter (λ t, t ∈ args) _) as (? & ? & ?). split_all; [done..|]. by right.
Qed.

Lemma extract_column_result_example :
  ∃ found, extract_column "B" "not-in" ["Outro"] df_exemplo = Ok found ∧
           found = ["Varejo"; "Atacado"] ∧
           NoDup found ∧ Forall (λ t, PyStr.strip t = t) found ∧
           Forall (λ t, t ∉ ["Outro"]) found.
Proof.
  eexists. split; [reflexivity|]. split; [reflexivity|].
  destruct (extract_column_result "B" "not-in" ["Outro"] _ df_exemplo eq_refl)
    as (Hnd & Htrim & [[_ Hout]|[Hmode _]]).
  - split_all; [exact Hnd|exact Htrim|exact Hout].
  - discriminate Hmode.
Defined.

(** X17: the two modes split the unique values of the column between
    them.  For the same reference values, the list of mode in and the list
    of mode not-in share no element, and together they hold each unique
    value once: what the call without reference values returns. *)
Theorem extract_column_modes_partition (column : string) (args inside outside : list string)
    (df : DataFrame) :
  extract_column column "in" args df = Ok inside →
  extract_column column "not-in" args df = Ok outside →
  (∀ t, t ∈ inside → t ∉ outside) ∧
  ∃ all, extract_column column "not-in" [] df = Ok all ∧ inside ++ outside ≡ₚ all.
Proof.
  destruct (extract_column_shape column df)
    as [(e & _ & Herr)|(all & Hnd & Htrim & Hshape)].
  { by rewrite Herr. }
  rewrite !Hshape. cbn. intros [= <-] [= <-]. split.
  - intros t [Hin _]%list_elem_of_filter [Hout _]%list_elem_of_filter. done.
  - exists all. split.
    + f_equal. apply filter_all, Forall_true. intros t. apply not_elem_of_nil.
    + apply filter_app_complement.
Qed.

Lemma extract_column_modes_partition_example :
  ∃ inside outside all,
    extract_column "B" "in" ["Outro"; "Nada"] df_exemplo = Ok inside ∧
    extract_column "B" "not-in" ["Outro"; "Nada"] df_exemplo = Ok outside ∧
    extract_column "B" "not-in" [] df_exemplo = Ok all ∧
    inside ++ outside ≡ₚ all.
Proof.
  eexists _, _.
  destruct (extract_column_modes_partition "B" ["Outro"; "Nada"] _ _ df_exemplo
              eq_refl eq_refl) as (_ & all & Hall & Hperm).
  exists all. split_all; [reflexivity|reflexivity|exact Hall|exact Hperm].
Defined.

Lemma trimmed_names (cols : list (string * list value)) (name : string) :
  name ∈ ((λ c, (PyStr.strip c.1, c.2)) <$> cols).*1 → PyStr.strip name = name.
Proof.
  intros (c & -> & Hc)%list_elem_of_fmap.
  apply list_elem_of_fmap in Hc as (c' & -> & _). cbn. apply strip_idemp.
Qed.

(** X18: the column is looked up among the trimmed names, by a name that
    is not itself trimmed.  A request that starts or ends with a blank is
    therefore never found: [extract_column] raises [KeyError] on every
    table, whatever the mode, even when the table has a column of exactly
    that name. *)
Theorem extract_column_padded_request (column mode : string) (args : list string)
    (df : DataFrame) :
  PyStr.strip column ≠ column →
  extract_column column mode args df = Err KeyError.
Proof.
  intros Hpad. unfold extract_column. rewrite bool_decide_eq_true_2; [done|].
  unfold column_names at 1. cbn [columns]. intros Hin%trimmed_names. done.
Qed.

Lemma extract_column_padded_request_example :
  " KAM" ∈ column_names df_nomes_com_espaco ∧
  extract_column " KAM" "not-in" [] df_nomes_com_espaco = Err KeyError.
Proof.
  split.
  - apply (bool_decide_unpack _). vm_compute. exact I.
  - apply (extract_column_padded_request " KAM" "not-in" [] df_nomes_com_espaco).
    discriminate.
Defined.

(** ** Fiscal period, again *)

(** X19: the fiscal period is the calendar month turned by three places,
    April being period 1: for a month m in 1..12 the label is the decimal
    form of ((m - 4) mod 12) + 1, a number in 1..12, and the month is
    recovered from the period p as ((p + 2) mod 12) + 1.  So the twelve
    months get the twelve periods, each once. *)
Theorem current_ano_safra_rotation (now m : Z) :
  1 ≤ m ≤ 12 →
  let p := (m - 4) mod 12 + 1 in
  current_ano_safra now (Some m) = Ok (PyStr.of_Z p) ∧
  1 ≤ p ≤ 12 ∧ m = (p + 2) mod 12 + 1.
Proof.
  intros Hm p.
  assert (m = 1 ∨ m = 2 ∨ m = 3 ∨ m = 4 ∨ m = 5 ∨ m = 6 ∨
          m = 7 ∨ m = 8 ∨ m = 9 ∨ m = 10 ∨ m = 11 ∨ m = 12) as Hcases by lia.
  subst p. repeat (destruct Hcases as [->|Hcases]); try subst m;
    (split_all; first [reflexivity|by vm_compute]).
Qed.

Lemma current_ano_safra_rotation_example :
  current_ano_safra 7 (Some 12) = Ok "9" ∧ 12 = (9 + 2) mod 12 + 1.
Proof.
  destruct (current_ano_safra_rotation 7 12 ltac:(lia)) as (Hlabel & _ & Hmonth).
  split; [exact Hlabel|exact Hmonth].
Defined.

(** ** The spreadsheet reader, again *)

(** X20: once the file has passed [validate_file], the reader calls
    [pd.read_excel] exactly once, hands on every keyword argument other
    than the engine untouched, and returns or raises exactly what that
    call returns or raises.  After a success nothing more is emitted;
    after a failure one warning follows, about the missing package when
    the failure is an [ImportError] and about the file otherwise. *)
Theorem read_safe_excel_hands_on_the_outcome
    (read_excel : string → gmap string string → result DataFrame)
    (fs : filesystem) (path : string) (kwargs : gmap string string) :
  validate_file fs path = Ok true →
  let out := read_safe_excel read_excel fs path kwargs in
  ∃ before kw after,
    out.1 = before ++ [ReadExcel path kw] ++ after ∧
    (∀ ev, ev ∈ before ++ after → ∃ w, ev = Warn w) ∧
    (∀ key, key ≠ "engine" → kw !! key = kwargs !! key) ∧
    out.2 = read_excel path kw ∧
    match out.2 with
    | Ok _ => after = []
    | Err ImportError => ∃ ext pkg, after = [Warn (MissingPackage ext pkg)]
    | Err _ => after = [Warn (ReadFailure (path_name path))]
    end.
Proof.
  intros Hvalid out. subst out. unfold read_safe_excel. rewrite Hvalid.
  set (ext := PyStr.lower (path_suffix path)).
  assert (∀ (before : list event) kw,
            (∀ ev, ev ∈ before → ∃ w, ev = Warn w) →
            (∀ key, key ≠ "engine" → kw !! key = kwargs !! key) →
            let out := (let called := before ++ [ReadExcel path kw] in
                        match read_excel path kw with
                        | Ok df => (called, Ok df)
                        | Err ImportError =>
                            (called ++ [Warn (MissingPackage ext
                               (default "o motor adequado" (engines !! ext)))],
                             Err ImportError)
                        | Err e => (called ++ [Warn (ReadFailure (path_name path))], Err e)
                        end) in
            ∃ before kw after,
              out.1 = before ++ [ReadExcel path kw] ++ after ∧
              (∀ ev, ev ∈ before ++ after → ∃ w, ev = Warn w) ∧
              (∀ key, key ≠ "engine" → kw !! key = kwargs !! key) ∧
              out.2 = read_excel path kw ∧
              match out.2 with
              | Ok _ => after = []
              | Err ImportError => ∃ ext pkg, after = [Warn (MissingPackage ext pkg)]
              | Err _ => after = [Warn (ReadFailure (path_name path))]
              end) as Hcall.
  { intros before kw Hbefore Hkw. cbv zeta.
    destruct (read_excel path kw) as [df|e] eqn:Hread.
    - exists before, kw, []. cbn [fst snd]. rewrite Hread.
      split_all; [done| |done|done|done].
      intros ev. rewrite app_nil_r. apply Hbefore.
    - assert (∀ w, ∀ ev, ev ∈ before ++ [Warn w] → ∃ w', ev = Warn w') as Hwarn.
      { intros w ev [?|Hev%list_elem_of_singleton]%elem_of_app; [eauto|].
        subst ev. eauto. }
      destruct e; (eexists before, kw, [_]; cbn [fst snd]; rewrite Hread;
        split_all; [by rewrite <- app_assoc|apply Hwarn|done|done|eauto]). }
  destruct (engines !! ext) as [engine|], (kwargs !! "engine") as [given|] eqn:Hgiven.
  - apply Hcall; [by intros ev ?%elem_of_nil|done].
  - apply Hcall; [by intros ev ?%elem_of_nil|].
    intros key Hkey. by rewrite lookup_insert_ne.
  - apply Hcall; [by intros ev ?%elem_of_nil|done].
  - apply Hcall; [|done]. intros ev ->%list_elem_of_singleton. eauto.
Qed.

Lemma read_safe_excel_hands_on_the_outcome_example :
  let reader := λ (_ : string) (_ : gmap string string), Err ImportError in
  let out := read_safe_excel reader fs_exemplo "data/input.xlsx" {["sheet_name" := "S1"]} in
  out.2 = Err ImportError ∧
  ∃ before kw after,
    out.1 = before ++ [ReadExcel "data/input.xlsx" kw] ++ after ∧
    kw !! "sheet_name" = Some "S1".
Proof.
  intros reader out.
  destruct (read_safe_excel_hands_on_the_outcome reader fs_exemplo "data/input.xlsx"
              {["sheet_name" := "S1"]} eq_refl)
    as (before & kw & after & Hev & _ & Hkw & Hout & _).
  split; [exact Hout|]. exists before, kw, after. split; [exact Hev|].
  rewrite Hkw by discriminate. reflexivity.
Defined.

(** ** Configuration, again *)

Lemma validate_field_ok (fs : filesystem) (data : list (string * yaml))
    (f : string * path_type) (p : string) :
  validate_field fs data f = inr p →
  dict_get data f.1 = Some (YStr p) ∧
  ∃ e, fs !! p = Some e ∧
       kind e = match f.2 with FilePath => RegularFile | DirectoryPath => Directory end.
Proof.
  unfold validate_field. destruct (dict_get data f.1) as [[| q | | |]|]; try done.
  destruct f.2, (fs !! q) as [[[] r]|] eqn:Hq; cbn; intros [= <-]; eauto.
Qed.

Lemma paths_of_valid_fields (fs : filesystem) (data : list (string * yaml))
    (fields : list (string * path_type)) :
  omap (λ f, match validate_field fs data f with inl e => Some e | inr _ => None end)
       fields = [] →
  let paths := omap (λ f, match validate_field fs data f with
                          | inr p => Some (f.1, p)
                          | inl _ => None
                          end) fields in
  paths.*1 = fields.*1 ∧
  ∀ name p, (name, p) ∈ paths →
    ∃ t, (name, t) ∈ fields ∧ validate_field fs data (name, t) = inr p.
Proof.
  induction fields as [|[name t] fields IH]; cbn [omap list_omap].
  { intros _. split; [done|]. by intros ?? ?%elem_of_nil. }
  destruct (validate_field fs data (name, t)) as [e|p] eqn:Hf; [done|].
  intros (Hnames & Hpaths)%IH. cbn. split; [by rewrite Hnames|].
  intros name' p' [[= -> ->]|Hin]%elem_of_cons.
  - exists t. split; [left|done].
  - destruct (Hpaths name' p' Hin) as (t' & Hin' & Hok).
    exists t'. split; [by right|done].
Qed.

(** X21: a [Settings] that was built names, for every field of
    [PathConfig] and in their order, a path that is on the disk: a regular
    file for the seven file fields and a directory for [output_path].  The
    console then shows the success line and nothing else. *)
Theorem Settings_init_paths_exist (fs : filesystem) (config : config_file)
    (console : list console_line) (s : Settings) :
  Settings_init fs config = (console, Ok s) →
  console = [Validated] ∧
  (field_paths (_paths s)).*1 = PathConfig_fields.*1 ∧
  ∀ name p, (name, p) ∈ field_paths (_paths s) →
    ∃ t e, (name, t) ∈ PathConfig_fields ∧ fs !! p = Some e ∧
           kind e = match t with FilePath => RegularFile | DirectoryPath => Directory end.
Proof.
  unfold Settings_init. destruct config as [| |raw_data]; try done.
  destruct (get_mapping raw_data "paths") as [data|]; [|done].
  unfold PathConfig_init, field_errors.
  destruct (omap _ PathConfig_fields) as [|e0 errors] eqn:Herrs; [|done].
  destruct (get_mapping raw_data "ui"), (get_mapping raw_data "outputs"); try done.
  intros [= <- <-]. cbn [_paths field_paths].
  destruct (paths_of_valid_fields fs data PathConfig_fields Herrs) as [Hnames Hpaths].
  split_all; [done|exact Hnames|].
  intros name p Hin. destruct (Hpaths name p Hin) as (t & Hfield & Hok).
  apply validate_field_ok in Hok as (_ & e & He & Hkind). eauto.
Qed.

Lemma Settings_init_paths_exist_example :
  ∃ s, Settings_init fs_config (Parsed config_completo) = ([Validated], Ok s) ∧
       (field_paths (_paths s)).*1 = PathConfig_fields.*1 ∧
       ∃ e, fs_config !! "out" = Some e ∧ kind e = Directory.
Proof.
  eexists. split; [vm_compute; reflexivity|].
  destruct (Settings_init_paths_exist fs_config (Parsed config_completo) _ _ eq_refl)
    as (_ & Hnames & Hpaths).
  split; [exact Hnames|].
  destruct (Hpaths "output_path" "out") as (t & e & Hfield & He & Hkind).
  { apply (bool_decide_unpack _). vm_compute. exact I. }
  exists e. split; [exact He|].
  assert (t = DirectoryPath) as ->; [|exact Hkind].
  revert Hfield. unfold PathConfig_fields.
  rewrite !elem_of_cons, elem_of_nil. intros H.
  repeat (destruct H as [[= ]|H]); done.
Defined.

Lemma no_field_errors (fs : filesystem) (data : list (string * yaml)) :
  (∀ f, f ∈ PathConfig_fields → field_fails fs data f = false) →
  field_errors fs data = [].
Proof.
  intros Hpass. unfold field_errors.
  destruct (omap _ PathConfig_fields) as [|e errors] eqn:Herrs; [done|].
  assert (e ∈ field_errors fs data) as Hin by (unfold field_errors; rewrite Herrs; left).
  apply field_errors_sound in Hin as (f & Hf & He).
  specialize (Hpass f Hf). unfold field_fails in Hpass. by rewrite He in Hpass.
Qed.

(** X22: the sections [ui] and [outputs] are optional but must be
    mappings.  With every path valid, a file that has neither section
    loads, with an empty list of colours and of output names; a file whose
    [ui] (or [outputs]) is anything but a mapping fails with the message
    for unexpected errors, valid paths notwithstanding. *)
Theorem Settings_init_optional_sections (fs : filesystem)
    (entries data : list (string * yaml)) :
  get_mapping (YMap entries) "paths" = Some data →
  (∀ f, f ∈ PathConfig_fields → field_fails fs data f = false) →
  let out := Settings_init fs (Parsed (YMap entries)) in
  (dict_get entries "ui" = None → dict_get entries "outputs" = None →
     ∃ s, out = ([Validated], Ok s) ∧ _colors s = YSeq [] ∧ _outputs s = YSeq []) ∧
  (get_mapping (YMap entries) "ui" = None ∨ get_mapping (YMap entries) "outputs" = None →
     out = ([Unexpected], Err (RuntimeError "Erro Inesperado"))).
Proof.
  intros Hpaths Hpass out. subst out. unfold Settings_init. rewrite Hpaths.
  unfold PathConfig_init. rewrite no_field_errors by done. split.
  - intros Hui Hout. cbn [get_mapping]. rewrite Hui, Hout. cbn. eauto.
  - intros [Hbad|Hbad]; rewrite Hbad; [done|].
    by destruct (get_mapping (YMap entries) "ui").
Qed.

Lemma Settings_init_optional_sections_example :
  (∃ s, Settings_init fs_config (Parsed (YMap [("paths", YMap paths_completo)]))
        = ([Validated], Ok s) ∧ _colors s = YSeq [] ∧ _outputs s = YSeq []) ∧
  Settings_init fs_config
    (Parsed (YMap [("paths", YMap paths_completo); ("ui", YStr "azul")]))
  = ([Unexpected], Err (RuntimeError "Erro Inesperado")).
Proof.
  assert (∀ f, f ∈ PathConfig_fields → field_fails fs_config paths_completo f = false)
    as Hpass.
  { intros f Hf. unfold PathConfig_fields in Hf.
    rewrite !elem_of_cons, elem_of_nil in Hf.
    repeat (destruct Hf as [->|Hf]; [vm_compute; reflexivity|]). done. }
  split.
  - apply (proj1 (Settings_init_optional_sections fs_config
                    [("paths", YMap paths_completo)] paths_completo eq_refl Hpass));
      reflexivity.
  - apply (proj2 (Settings_init_optional_sections fs_config
                    [("paths", YMap paths_completo); ("ui", YStr "azul")]
                    paths_completo eq_refl Hpass)).
    left. reflexivity.
Defined.

(** ** The [!join] tag *)

Lemma append_assoc (a b c : string) :
  String.append (String.append a b) c = String.append a (String.append b c).
Proof.
  induction a as [|x a IH]; [done|].
  change (String x (String.append (String.append a b) c)
          = String x (String.append a (String.append b c))).
  by rewrite IH.
Qed.

Lemma append_empty_r (a : string) : String.append a "" = a.
Proof.
  induction a as [|x a IH]; [done|].
  change (String x (String.append a "") = String x a). by rewrite IH.
Qed.

Lemma join_constructor_app (xs ys : list fragment) :
  join_constructor (xs ++ ys)
  = String.append (join_constructor xs) (join_constructor ys).
Proof.
  unfold join_constructor. induction xs as [|x xs IH]; [done|].
  rewrite <- app_comm_cons, !fmap_cons. cbn [fold_right].
  by rewrite IH, append_assoc.
Qed.

(** X23: [!join] glues the fragments with nothing in between, so the way
    a path is cut into fragments does not matter: the join of two lists
    put end to end is the two joins put end to end, and a fragment that is
    itself the result of a join can be replaced by the fragments it was
    made of.  An integer fragment enters by its decimal digits. *)
Theorem join_constructor_regroups (xs ys : list fragment) (n : Z) :
  join_constructor (xs ++ ys)
  = String.append (join_constructor xs) (join_constructor ys) ∧
  join_constructor (FStr (join_constructor xs) :: ys) = join_constructor (xs ++ ys) ∧
  join_constructor (xs ++ [FInt n])
  = String.append (join_constructor xs) (PyStr.of_Z n).
Proof.
  split_all.
  - apply join_constructor_app.
  - by rewrite join_constructor_app.
  - rewrite join_constructor_app. unfold join_constructor at 2.
    cbn [fmap list_fmap fold_right fragment_str]. by rewrite append_empty_r.
Qed.

(** ** Counting rows, and pipelines *)

Lemma drop_rows_count (labels : list Z) (df out : DataFrame) :
  NoDup labels → NoDup (index df) →
  drop_rows labels df = Ok out →
  (length (index out) + length labels = length (index df))%nat.
Proof.
  unfold drop_rows. intros Hl Hidx. case_bool_decide as Hall; [|done].
  intros [= <-]. unfold select_rows. cbn [index]. rewrite select_fmap_filter.
  rewrite <- (Permutation_length (filter_app_complement (λ l, l ∈ labels) (index df))).
  rewrite length_app.
  assert (filter (λ l, l ∈ labels) (index df) ≡ₚ labels) as ->.
  { apply NoDup_Permutation; [by apply NoDup_filter|done|].
    intros l. rewrite list_elem_of_filter. split; [tauto|].
    intros Hin. split; [done|]. by apply (proj1 (Forall_forall _ _) Hall). }
  rewrite Nat.add_comm. f_equal. f_equal.
  apply list_filter_iff. intros l. by rewrite bool_decide_spec.
Qed.

(** X24: on a table whose row labels are all different, a successful
    [remove_lines] shortens the table by exactly the number of rows named:
    the number of distinct labels listed in individual mode, and b - a in
    interval mode with indices a ≤ b. *)
Theorem remove_lines_row_count (df out : DataFrame) :
  NoDup (index df) →
  (∀ args, NoDup args → remove_lines args "individual" df = Ok out →
     (length (index out) + length args = length (index df))%nat) ∧
  (∀ a b, a ≤ b → remove_lines [a; b] "interval" df = Ok out →
     Z.of_nat (length (index out)) + (b - a) = Z.of_nat (length (index df))).
Proof.
  intros Hidx. split.
  - intros args Hargs.
    assert (remove_lines args "individual" df = drop_rows args df) as ->
      by (unfold remove_lines; by destruct args as [|? [|? []]]).
    by apply drop_rows_count.
  - intros a b Hab Hout.
    apply drop_rows_count in Hout; [|apply NoDup_seqZ|done].
    unfold py_range in Hout. rewrite length_seqZ in Hout. lia.
Qed.

Lemma remove_lines_row_count_example :
  ∃ out, remove_lines [0; 2] "interval" df_exemplo = Ok out ∧
         Z.of_nat (length (index out)) + (2 - 0) = 5.
Proof.
  eexists. split; [reflexivity|].
  assert (NoDup (index df_exemplo)) as Hnd.
  { apply (bool_decide_unpack _). vm_compute. exact I. }
  apply (proj2 (remove_lines_row_count df_exemplo _ Hnd) 0 2); [lia|reflexivity].
Defined.

Lemma getitem_distinct (df : DataFrame) (col : string) :
  NoDup (column_names df) → col ∈ column_names df →
  ∃ cells, getitem df col = Ok (OneSeries cells).
Proof.
  unfold column_names. intros Hnd (c & -> & Hc)%list_elem_of_fmap.
  apply list_elem_of_split in Hc as (before & after & Hsplit).
  rewrite Hsplit, fmap_app, fmap_cons in Hnd.
  apply NoDup_app in Hnd as (_ & Hba & Hnd). apply NoDup_cons in Hnd as [Ha _].
  exists c.2. destruct c as [n cells]. eapply getitem_single; [exact Hsplit| |exact Ha].
  intros Hb. eapply Hba; [exact Hb|left].
Qed.

Lemma clean_key_column_distinct (df : DataFrame) (col : string) :
  NoDup (column_names df) →
  (col ∈ column_names df →
     ∃ out, clean_key_column df col = Ok out ∧ column_names out = column_names df) ∧
  (col ∉ column_names df → clean_key_column df col = Err KeyError).
Proof.
  intros Hnd. unfold clean_key_column. split; intros Hcol.
  - rewrite bool_decide_eq_false_2 by tauto.
    destruct (getitem_distinct df col Hnd Hcol) as [cells Hget].
    rewrite Hget. cbn [rbind]. rewrite str_accessor_astype_str. cbn [rbind].
    erewrite getitem_setitem by exact Hget. cbn [rbind].
    eexists. split; [done|]. by rewrite !column_names_setitem.
  - by rewrite bool_decide_eq_true_2.
Qed.

Lemma clean_key_loop_distinct (column_list : list string) (df : DataFrame) :
  NoDup (column_names df) →
  (Forall (λ c, c ∈ column_names df) column_list →
     ∃ out, clean_key_loop column_list df = Ok out) ∧
  (¬ Forall (λ c, c ∈ column_names df) column_list →
     clean_key_loop column_list df = Err KeyError).
Proof.
  revert df. induction column_list as [|col rest IH]; intros df Hnd.
  { split; [eauto|]. intros Hnot. exfalso. apply Hnot. constructor. }
  cbn [clean_key_loop].
  destruct (clean_key_column_distinct df col Hnd) as [Hin Hout].
  destruct (decide (col ∈ column_names df)) as [Hcol|Hcol].
  - destruct (Hin Hcol) as (d1 & -> & Hnames). cbn [rbind].
    rewrite <- Hnames in Hnd |- *. destruct (IH d1 Hnd) as [Hok Herr]. split.
    + intros Hall. apply Hok. by apply Forall_cons in Hall as [_ ?].
    + intros Hnot. apply Herr. intros Hall. apply Hnot. constructor; [|done].
      by rewrite Hnames.
  - rewrite (Hout Hcol). cbn [rbind]. split; [|done].
    intros Hall. by apply Forall_cons in Hall as [? _].
Qed.

(** X25: on a table whose column names are all different, [clean_key]
    fails for one reason only.  It returns a table when every named column
    is in the table, whatever the cells hold (numbers and missing values
    included), and raises [KeyError] when a named column is not. *)
Theorem clean_key_succeeds_when_columns_present (col : col_arg) (df : DataFrame) :
  NoDup (column_names df) →
  let column_list := match col with OneColumn c => [c] | ColumnList l => l end in
  (Forall (λ c, c ∈ column_names df) column_list → ∃ out, clean_key col df = Ok out) ∧
  (¬ Forall (λ c, c ∈ column_names df) column_list → clean_key col df = Err KeyError).
Proof.
  intros Hnd column_list. unfold clean_key. by apply clean_key_loop_distinct.
Qed.

Lemma clean_key_succeeds_when_columns_present_example :
  (∃ out, clean_key (ColumnList ["A"; "B"]) df_exemplo = Ok out) ∧
  clean_key (ColumnList ["A"; "Z"]) df_exemplo = Err KeyError.
Proof.
  assert (NoDup (column_names df_exemplo)) as Hnd.
  { apply (bool_decide_unpack _). vm_compute. exact I. }
  split.
  - apply (proj1 (clean_key_succeeds_when_columns_present
                    (ColumnList ["A"; "B"]) df_exemplo Hnd)).
    apply (bool_decide_unpack _). vm_compute. exact I.
  - apply (proj2 (clean_key_succeeds_when_columns_present
                    (ColumnList ["A"; "Z"]) df_exemplo Hnd)).
    apply (bool_decide_unpack _). vm_compute. exact I.
Defined.

Lemma str_accessor_text_or_missing (cells : list value) :
  Forall (λ v, v = VNA ∨ ∃ t, v = VStr t) cells →
  str_accessor (OneSeries cells) = Ok cells.
Proof.
  intros Hall. unfold str_accessor, infer_dtype.
  destruct (filter _ cells) as [|v present] eqn:Hp; [done|].
  assert (forallb is_str (v :: present) = true) as ->; [|done].
  apply forallb_forall. intros x Hx%list_elem_of_In.
  rewrite <- Hp in Hx. apply list_elem_of_filter in Hx as [Hna Hx].
  apply (proj1 (Forall_forall _ _) Hall) in Hx as [->|[t ->]]; done.
Qed.

(** X26: normalising a column makes it safe to filter on.  After
    [clean_key] on one column, [filter_columns] on that column returns a
    table for any values, also when the column held numbers, on which
    [filter_columns] alone raises. *)
Theorem filter_columns_after_clean_key (col : string) (args : filter_args)
    (df mid : DataFrame) :
  clean_key (OneColumn col) df = Ok mid →
  ∃ out, filter_columns col args mid = Ok out.
Proof.
  unfold clean_key. cbn [clean_key_loop].
  destruct (clean_key_column df col) as [d1|e] eqn:Hstep; [|done].
  cbn [rbind]. intros [= <-].
  destruct (clean_key_column_ok df d1 col Hstep) as (cells & Hget & ->).
  unfold filter_columns.
  erewrite getitem_setitem by exact Hget. cbn [rbind].
  rewrite str_accessor_text_or_missing; [cbn [rbind]; eauto|].
  apply Forall_fmap, Forall_true. intros u. cbn.
  destruct (clean_key_cell_cases u) as [->|(s & -> & _)]; eauto.
Qed.

Lemma filter_columns_after_clean_key_example :
  filter_columns "A" (Variadic ["1"; "3"]) df_exemplo = Err AttributeError ∧
  ∃ mid out, clean_key (OneColumn "A") df_exemplo = Ok mid ∧
             filter_columns "A" (Variadic ["1"; "3"]) mid = Ok out.
Proof.
  split; [reflexivity|]. eexists.
  destruct (filter_columns_after_clean_key "A" (Variadic ["1"; "3"]) df_exemplo _ eq_refl)
    as [out Hout].
  exists out. split; [reflexivity|exact Hout].
Defined.
